(** * fawrap: a preload library that confines file access to a window

    Shallow embedding of [fawrap.c].  The library interposes on a fixed
    set of libc entry points ([open], [close], [lseek], [fstat], ...),
    keeps a table of the descriptors that refer to the target file and
    rewrites offsets and sizes so that the byte range
    [segment_offset, segment_offset + segment_len) of the target file
    looks like a whole file.

    Conventions of the embedding.
    - C integers are [Z].  The data model is LP64 Linux: [int] is 32 bits,
      [off_t], [off64_t], [ssize_t] are signed 64 bits, [size_t] and
      [unsigned long long] are unsigned 64 bits.  The two additive
      updates of an offset ([+=] and [-=] on [off64_t]) are written with
      the two's complement wrap-around [wrap64].
    - The static variables of the file are the first six fields of
      [state]; the rest of [state] is what the process can observe of the
      outside: standard output, [errno] and the state of the real file
      operations.
    - The real operations obtained through [dlsym(RTLD_NEXT, ...)] are
      the record [real_ops]: they are external collaborators, so every
      wrapper is defined for an arbitrary implementation of them.
    - [exit(1)] is the [Exit] outcome of the monad [M]; an early [return]
      in the middle of a wrapper is written [inl] (see [lseek]). *)

From Stdlib Require Import ZArith List String Ascii Bool Lia.
Import ListNotations.
Open Scope string_scope.
Open Scope Z_scope.

(** ** Machine integers *)

Definition INT64_MIN : Z := - 2 ^ 63.
Definition INT64_MAX : Z := 2 ^ 63 - 1.
Definition ULLONG_MAX : Z := 2 ^ 64 - 1.

(** Membership in the range of [off64_t] (and of [off_t], [ssize_t]). *)
Definition in_off64 (z : Z) : Prop := INT64_MIN <= z <= INT64_MAX.

(** Reduction of a mathematical result to a signed 64-bit value. *)
Definition wrap64 (z : Z) : Z := (z + 2 ^ 63) mod 2 ^ 64 - 2 ^ 63.

(** ** Constants of the system headers (Linux values) *)

Definition EINVAL : Z := 22.
Definition ENOSPC : Z := 28.
Definition ERANGE : Z := 34.
Definition SEEK_SET : Z := 0.
Definition O_CREAT : Z := 64.

(** ** Constants of the file *)

Definition MAX_FD : nat := 16.

Definition LOG_ALL : Z := 1.
Definition LOG_ERR : Z := 2.
Definition LOG_INFO : Z := 3.
Definition LOG_DBG : Z := 4.

(** ** Data *)

(** [struct stat] / [struct stat64] (the two coincide on LP64). *)
Record stat : Type := mkStat {
  st_dev : Z;
  st_ino : Z;
  st_nlink : Z;
  st_mode : Z;
  st_uid : Z;
  st_gid : Z;
  st_rdev : Z;
  st_size : Z;
  st_blksize : Z;
  st_blocks : Z;
  st_atime : Z;
  st_mtime : Z;
  st_ctime : Z
}.

(** [buf->st_size = v]. *)
Definition set_st_size (v : Z) (b : stat) : stat :=
  mkStat (st_dev b) (st_ino b) (st_nlink b) (st_mode b) (st_uid b) (st_gid b)
         (st_rdev b) v (st_blksize b) (st_blocks b)
         (st_atime b) (st_mtime b) (st_ctime b).

(** An argument of a [printf]-style call, kept unformatted. *)
Inductive arg : Type :=
| AInt (z : Z)
| AStr (s : string).

(** One line given to [dprint]: the format and its arguments.  The
    rendering by [vsnprintf] is a function of the two and is not
    carried out. *)
Record line : Type := mkLine { ln_fmt : string; ln_args : list arg }.

(** Contents of a byte buffer handed to a positioned read or write. *)
Definition bytes : Type := list Z.

(** What the real operations see and change: [errno] and the rest of the
    world (files, positions, ...), which the wrappers never inspect. *)
Record host (W : Type) : Type := mkHost { errno : Z; world : W }.
Arguments mkHost {W} _ _.
Arguments errno {W} _.
Arguments world {W} _.

(** The function pointers [p_open], [p_close], ... filled in by
    [DEFINE_DLSYM].  A buffer argument is passed by value and handed
    back with the result when the callee may write it. *)
Record real_ops (W : Type) : Type := mkReal {
  p_open : string -> Z -> Z -> host W -> Z * host W;
  p_open64 : string -> Z -> Z -> host W -> Z * host W;
  p___open64_2 : string -> Z -> host W -> Z * host W;
  p_close : Z -> host W -> Z * host W;
  p_lseek : Z -> Z -> Z -> host W -> Z * host W;
  p_lseek64 : Z -> Z -> Z -> host W -> Z * host W;
  p___xstat : Z -> string -> stat -> host W -> (Z * stat) * host W;
  p___xstat64 : Z -> string -> stat -> host W -> (Z * stat) * host W;
  p_fstat : Z -> stat -> host W -> (Z * stat) * host W;
  p_fstat64 : Z -> stat -> host W -> (Z * stat) * host W;
  p___fxstat64 : Z -> Z -> stat -> host W -> (Z * stat) * host W;
  p_fallocate : Z -> Z -> Z -> Z -> host W -> Z * host W;
  p_pread64 : Z -> bytes -> Z -> Z -> host W -> (Z * bytes) * host W;
  p_pwrite64 : Z -> bytes -> Z -> Z -> host W -> Z * host W
}.
Arguments p_open {W} _.
Arguments p_open64 {W} _.
Arguments p___open64_2 {W} _.
Arguments p_close {W} _.
Arguments p_lseek {W} _.
Arguments p_lseek64 {W} _.
Arguments p___xstat {W} _.
Arguments p___xstat64 {W} _.
Arguments p_fstat {W} _.
Arguments p_fstat64 {W} _.
Arguments p___fxstat64 {W} _.
Arguments p_fallocate {W} _.
Arguments p_pread64 {W} _.
Arguments p_pwrite64 {W} _.

(** The static variables ([target_name] ... [debug_level]) and the
    process state around them.  [debug_stream] is [None] for [NULL] and
    otherwise holds the lines written to [fawrap.log]. *)
Record state (W : Type) : Type := mkState {
  target_name : option string;
  target_fd : list Z;
  segment_offset : Z;
  segment_len : Z;
  debug_stream : option (list line);
  debug_level : Z;
  stdout : list line;
  sys : host W
}.
Arguments mkState {W} _ _ _ _ _ _ _ _.
Arguments target_name {W} _.
Arguments target_fd {W} _.
Arguments segment_offset {W} _.
Arguments segment_len {W} _.
Arguments debug_stream {W} _.
Arguments debug_level {W} _.
Arguments stdout {W} _.
Arguments sys {W} _.

(** The values the statics have when the library is loaded. *)
Definition initial_state {W : Type} (h : host W) : state W :=
  mkState None (repeat 0 MAX_FD) 0 0 None 2 [] h.

(** ** The monad of the wrappers: state, and termination by [exit] *)

Inductive outcome (W A : Type) : Type :=
| Ret (a : A) (s : state W)
| Exit (code : Z) (s : state W).
Arguments Ret {W A} _ _.
Arguments Exit {W A} _ _.

Definition M (W A : Type) : Type := state W -> outcome W A.

Definition ret {W A} (a : A) : M W A := fun s => Ret a s.

Definition bind {W A B} (m : M W A) (k : A -> M W B) : M W B :=
  fun s => match m s with
           | Ret a s' => k a s'
           | Exit c s' => Exit c s'
           end.

Definition exit {W A} (code : Z) : M W A := fun s => Exit code s.

Definition gets {W A} (f : state W -> A) : M W A := fun s => Ret (f s) s.

Definition modify {W} (f : state W -> state W) : M W unit :=
  fun s => Ret tt (f s).

Declare Scope fawrap_scope.
Delimit Scope fawrap_scope with fawrap.
Notation "x <- m ;; k" := (bind m (fun x => k))
  (at level 61, m at next level, right associativity) : fawrap_scope.
Notation "m ;; k" := (bind m (fun _ => k))
  (at level 61, right associativity) : fawrap_scope.
Open Scope fawrap_scope.

(** Field updates. *)
Definition set_target_name {W} (v : option string) (s : state W) : state W :=
  mkState v (target_fd s) (segment_offset s) (segment_len s)
          (debug_stream s) (debug_level s) (stdout s) (sys s).
Definition set_target_fd {W} (v : list Z) (s : state W) : state W :=
  mkState (target_name s) v (segment_offset s) (segment_len s)
          (debug_stream s) (debug_level s) (stdout s) (sys s).
Definition set_segment_offset {W} (v : Z) (s : state W) : state W :=
  mkState (target_name s) (target_fd s) v (segment_len s)
          (debug_stream s) (debug_level s) (stdout s) (sys s).
Definition set_segment_len {W} (v : Z) (s : state W) : state W :=
  mkState (target_name s) (target_fd s) (segment_offset s) v
          (debug_stream s) (debug_level s) (stdout s) (sys s).
Definition set_debug_stream {W} (v : option (list line)) (s : state W)
  : state W :=
  mkState (target_name s) (target_fd s) (segment_offset s) (segment_len s)
          v (debug_level s) (stdout s) (sys s).
Definition set_debug_level {W} (v : Z) (s : state W) : state W :=
  mkState (target_name s) (target_fd s) (segment_offset s) (segment_len s)
          (debug_stream s) v (stdout s) (sys s).
Definition set_stdout {W} (v : list line) (s : state W) : state W :=
  mkState (target_name s) (target_fd s) (segment_offset s) (segment_len s)
          (debug_stream s) (debug_level s) v (sys s).
Definition set_sys {W} (v : host W) (s : state W) : state W :=
  mkState (target_name s) (target_fd s) (segment_offset s) (segment_len s)
          (debug_stream s) (debug_level s) (stdout s) v.

(** [errno = e]. *)
Definition set_errno {W} (e : Z) : M W unit :=
  modify (fun s => set_sys (mkHost e (world (sys s))) s).

(** A call through one of the [p_...] pointers. *)
Definition call {W A} (f : host W -> A * host W) : M W A :=
  fun s => let (a, h) := f (sys s) in Ret a (set_sys h s).

(** ** Diagnostics *)

(** [dprint]: a line is dropped when the level is below [LOG_DBG], the
    call is not a redirected one seen at [LOG_INFO], and its own level is
    above the configured one.  Otherwise it goes to standard output and,
    when the log file is open, to the log file as well. *)
Definition dprint {W} (level : Z) (our : bool) (fmt : string)
  (args : list arg) : M W unit :=
  fun s =>
    if (debug_level s <? LOG_DBG)
       && negb ((debug_level s =? LOG_INFO) && our)
       && (level >? debug_level s)
    then Ret tt s
    else
      let l := mkLine fmt args in
      Ret tt (set_debug_stream
                (match debug_stream s with
                 | Some f => Some (f ++ [l])%list
                 | None => None
                 end)
                (set_stdout (stdout s ++ [l])%list s)).

(** ** Target name and descriptor table *)

(** [check_name]: [strcmp(path, target_name) == 0].  [target_name] is
    never [NULL] once [init] has returned (lemma [init_ret_target_name]);
    the [None] case only keeps the function total. *)
Definition check_name {W} (path : string) : M W bool :=
  gets (fun s => match target_name s with
                 | Some t => String.eqb path t
                 | None => false
                 end).

(** The loop of [check_fd] over the slots of [target_fd]. *)
Fixpoint check_fd_loop (fd : Z) (slots : list Z) : bool :=
  match slots with
  | [] => false
  | x :: rest => if fd =? x then true else check_fd_loop fd rest
  end.

Definition check_fd {W} (fd : Z) : M W bool :=
  gets (fun s => check_fd_loop fd (target_fd s)).

(** The loop of [add_fd]: the first slot holding 0 receives [fd];
    [None] when the loop runs off the end of the table. *)
Fixpoint add_fd_loop (fd : Z) (slots : list Z) : option (list Z) :=
  match slots with
  | [] => None
  | x :: rest =>
      if x =? 0 then Some (fd :: rest)
      else match add_fd_loop fd rest with
           | Some rest' => Some (x :: rest')
           | None => None
           end
  end.

(** [add_fd] returns [false] when the descriptor was stored and [true]
    when the table is full. *)
Definition add_fd {W} (fd : Z) : M W bool :=
  fun s => match add_fd_loop fd (target_fd s) with
           | Some t => Ret false (set_target_fd t s)
           | None => Ret true s
           end.

(** The loop of [remove_fd]: the first slot holding [fd] is reset to 0. *)
Fixpoint remove_fd_loop (fd : Z) (slots : list Z) : option (list Z) :=
  match slots with
  | [] => None
  | x :: rest =>
      if fd =? x then Some (0 :: rest)
      else match remove_fd_loop fd rest with
           | Some rest' => Some (x :: rest')
           | None => None
           end
  end.

Definition remove_fd {W} (fd : Z) : M W unit :=
  fun s => match remove_fd_loop fd (target_fd s) with
           | Some t => Ret tt (set_target_fd t s)
           | None =>
               (dprint LOG_ERR true "%s(error line %d)"
                       [AStr "remove_fd"; AInt 155] ;;
                exit 1) s
           end.

(** [fini]: closes the log file when there is one.  Every line was
    flushed when it was written, so closing changes nothing the model
    records. *)
Definition fini {W} : M W unit :=
  fun s => match debug_stream s with
           | Some _ => Ret tt s
           | None => Ret tt s
           end.

(** ** The C library functions used by [init] *)

Fixpoint is_delim (delim : string) (c : ascii) : bool :=
  match delim with
  | EmptyString => false
  | String d rest => if Ascii.eqb c d then true else is_delim rest c
  end.

Fixpoint skip_delims (delim : string) (s : string) : string :=
  match s with
  | EmptyString => EmptyString
  | String c rest => if is_delim delim c then skip_delims delim rest else s
  end.

(** The token at the head of [s] and what follows its terminating
    delimiter. *)
Fixpoint take_token (delim : string) (s : string) : string * string :=
  match s with
  | EmptyString => (EmptyString, EmptyString)
  | String c rest =>
      if is_delim delim c then (EmptyString, rest)
      else let (t, k) := take_token delim rest in (String c t, k)
  end.

(** [strtok]: the saved position of the C function is passed explicitly;
    the result is the token ([None] for [NULL]) and the new saved
    position. *)
Definition strtok (s : string) (delim : string) : option string * string :=
  match skip_delims delim s with
  | EmptyString => (None, EmptyString)
  | s' => let (t, k) := take_token delim s' in (Some t, k)
  end.

(** [isspace] in the C locale. *)
Definition is_space (c : ascii) : bool :=
  let n := Z.of_nat (nat_of_ascii c) in
  (n =? 32) || ((9 <=? n) && (n <=? 13)).

Fixpoint skip_spaces (s : string) : string :=
  match s with
  | EmptyString => EmptyString
  | String c rest => if is_space c then skip_spaces rest else s
  end.

Definition digit_of (c : ascii) : option Z :=
  let n := Z.of_nat (nat_of_ascii c) in
  if (48 <=? n) && (n <=? 57) then Some (n - 48) else None.

Fixpoint read_digits (acc : Z) (s : string) : Z :=
  match s with
  | EmptyString => acc
  | String c rest =>
      match digit_of c with
      | Some d => read_digits (10 * acc + d) rest
      | None => acc
      end
  end.

(** [strtoull(p, NULL, 10)]: leading white space, an optional sign, then
    the longest run of decimal digits; 0 when there is no digit,
    [ULLONG_MAX] when the value does not fit, and the negation modulo
    2^64 after a minus sign. *)
Definition strtoull (p : string) : Z :=
  let s1 := skip_spaces p in
  let '(neg, s2) :=
    match s1 with
    | String "-" rest => (true, rest)
    | String "+" rest => (false, rest)
    | _ => (false, s1)
    end in
  let v := read_digits 0 s2 in
  if v >? ULLONG_MAX then ULLONG_MAX
  else if neg then (2 ^ 64 - v) mod 2 ^ 64
  else v.

(** Whether [strtoull(p, NULL, 10)] stores [ERANGE] in [errno]: the
    digits it reads denote more than [ULLONG_MAX]. *)
Definition strtoull_overflows (p : string) : bool :=
  let s1 := skip_spaces p in
  let s2 :=
    match s1 with
    | String "-" rest => rest
    | String "+" rest => rest
    | _ => s1
    end in
  read_digits 0 s2 >? ULLONG_MAX.

(** A call of [strtoull(p, NULL, 10)]: the value, and [errno] set to
    [ERANGE] when the value does not fit. *)
Definition strtoull_call {W} (p : string) : M W Z :=
  (if strtoull_overflows p then set_errno ERANGE else ret tt) ;;
  ret (strtoull p).

(** The host after a call of [strtoull] on [p]. *)
Definition after_strtoull {W} (p : string) (h : host W) : host W :=
  if strtoull_overflows p then mkHost ERANGE (world h) else h.

(** The C literal of the last banner line of [init]: it ends with a
    newline character. *)
Definition len_format : string :=
  "fawrap.so         len: %llu" ++ String "010" EmptyString.

(** ** Constructor *)

(** [init].  [env_FILE] is [getenv("FILE")] and [fopen_ok] tells whether
    [fopen("fawrap.log", "w")] succeeds.  The assignments from
    [strtoull] convert [unsigned long long] to [off64_t].  When [fopen]
    fails the process ends at once; the value the failed call leaves in
    [errno] is not recorded. *)
Definition init {W} (env_FILE : option string) (fopen_ok : bool)
  : M W unit :=
  modify (set_target_fd (repeat 0 MAX_FD)) ;;
  match env_FILE with
  | None =>
      dprint LOG_ERR true "Error: target file not set!" [] ;;
      fini ;;
      exit 1
  | Some args =>
      let (tok0, k0) := strtok args "," in
      modify (set_target_name tok0) ;;
      let (p1, k1) := strtok k0 "," in
      match p1 with
      | None =>
          dprint LOG_ERR true "%s(error line %d)" [AStr "init"; AInt 200] ;;
          exit 1
      | Some p =>
          v <- strtoull_call p ;;
          modify (set_segment_offset (wrap64 v))
      end ;;
      let (p2, k2) := strtok k1 "," in
      match p2 with
      | None =>
          dprint LOG_ERR true "%s(error line %d)" [AStr "init"; AInt 207] ;;
          exit 1
      | Some p =>
          v <- strtoull_call p ;;
          modify (set_segment_len (wrap64 v))
      end ;;
      let (p3, _) := strtok k2 "," in
      match p3 with
      | Some p =>
          if String.eqb p "d" then modify (set_debug_level LOG_DBG)
          else if String.eqb p "i" then modify (set_debug_level LOG_INFO)
          else ret tt
      | None => ret tt
      end ;;
      lvl <- gets debug_level ;;
      (if lvl >=? LOG_INFO then
         if fopen_ok then modify (set_debug_stream (Some []))
         else
           modify (set_debug_stream None) ;;
           dprint LOG_ERR true "%s(error line %d)" [AStr "init"; AInt 223] ;;
           exit 1
       else ret tt) ;;
      nm <- gets target_name ;;
      off <- gets segment_offset ;;
      len <- gets segment_len ;;
      dprint LOG_INFO true "fawrap.so target file: %s"
             [match nm with Some n => AStr n | None => AStr "" end] ;;
      dprint LOG_INFO true "fawrap.so      offset: %llu" [AInt off] ;;
      dprint LOG_INFO true len_format [AInt len]
  end.

(** ** The interposed functions *)

Section Wrappers.

Context {W : Type} (real : real_ops W).

(** The [mode] given to the real open: the variadic argument [va_mode]
    when [O_CREAT] is among the flags, and 0 otherwise. *)
Definition creation_mode (flags va_mode : Z) : Z :=
  if Z.land flags O_CREAT =? 0 then 0 else va_mode.

Definition open (path : string) (flags : Z) (va_mode : Z) : M W Z :=
  let mode := creation_mode flags va_mode in
  res <- call (p_open real path flags mode) ;;
  our <- check_name path ;;
  dprint LOG_DBG our "%s(%s, %d, %d) => %d"
         [AStr "open"; AStr path; AInt flags; AInt mode; AInt res] ;;
  c <- check_name path ;;
  full <- (if c then add_fd res else ret false) ;;
  if full then
    our <- check_name path ;;
    dprint LOG_ERR our "%s(error line %d)" [AStr "open"; AInt 252] ;;
    exit 1
  else ret res.

Definition open64 (path : string) (flags : Z) (va_mode : Z) : M W Z :=
  let mode := creation_mode flags va_mode in
  res <- call (p_open64 real path flags mode) ;;
  our <- check_name path ;;
  dprint LOG_DBG our "%s(%s, %d, %d) => %d"
         [AStr "open64"; AStr path; AInt flags; AInt mode; AInt res] ;;
  c <- check_name path ;;
  full <- (if c then add_fd res else ret false) ;;
  if full then
    our <- check_name path ;;
    dprint LOG_ERR our "%s(error line %d)" [AStr "open64"; AInt 276] ;;
    exit 1
  else ret res.

Definition __open64_2 (path : string) (flags : Z) : M W Z :=
  res <- call (p___open64_2 real path flags) ;;
  our <- check_name path ;;
  dprint LOG_DBG our "%s(%s, %d) => %d"
         [AStr "__open64_2"; AStr path; AInt flags; AInt res] ;;
  c <- check_name path ;;
  full <- (if c then add_fd res else ret false) ;;
  if full then
    our <- check_name path ;;
    dprint LOG_ERR our "%s(error line %d)" [AStr "__open64_2"; AInt 293] ;;
    exit 1
  else ret res.

Definition close (fd : Z) : M W Z :=
  res <- call (p_close real fd) ;;
  our <- check_fd fd ;;
  dprint LOG_DBG our "%s(%d) => %d" [AStr "close"; AInt fd; AInt res] ;;
  c <- check_fd fd ;;
  (if c then remove_fd fd else ret tt) ;;
  ret res.

(** [lseek].  The first block yields [inl r] for [return r] and [inr o]
    for the value of [offset_new] it leaves behind. *)
Definition lseek (fd offset whence : Z) : M W Z :=
  let offset_new := offset in
  c <- check_fd fd ;;
  pre <- (if c then
            (if negb (whence =? SEEK_SET) then
               our <- check_fd fd ;;
               dprint LOG_DBG our "%s(error line %d)"
                      [AStr "lseek"; AInt 322] ;;
               exit 1
             else ret tt) ;;
            len <- gets segment_len ;;
            if offset_new >? len then
              dprint LOG_ERR true "%s offset out of bounds" [AStr "lseek"] ;;
              ret (inl EINVAL)
            else
              base <- gets segment_offset ;;
              ret (inr (wrap64 (offset_new + base)))
          else ret (inr offset_new)) ;;
  match pre with
  | inl r => ret r
  | inr offset_new =>
      res <- call (p_lseek real fd offset_new whence) ;;
      c <- check_fd fd ;;
      res <- (if c then
                res <- (if negb (res =? offset_new) then
                          set_errno EINVAL ;;
                          ret (-1)
                        else ret res) ;;
                base <- gets segment_offset ;;
                ret (wrap64 (res - base))
              else ret res) ;;
      our <- check_fd fd ;;
      dprint LOG_DBG our "%s(%d, %lu, %d) => %lu"
             [AStr "lseek"; AInt fd; AInt offset; AInt whence; AInt res] ;;
      ret res
  end.

Definition lseek64 (fd offset whence : Z) : M W Z :=
  let offset_new := offset in
  c <- check_fd fd ;;
  pre <- (if c then
            (if negb (whence =? SEEK_SET) then
               our <- check_fd fd ;;
               dprint LOG_DBG our "%s(error line %d)"
                      [AStr "lseek64"; AInt 359] ;;
               exit 1
             else ret tt) ;;
            len <- gets segment_len ;;
            if offset_new >? len then
              dprint LOG_ERR true "%s offset out of bounds"
                     [AStr "lseek64"] ;;
              ret (inl EINVAL)
            else
              base <- gets segment_offset ;;
              ret (inr (wrap64 (offset_new + base)))
          else ret (inr offset_new)) ;;
  match pre with
  | inl r => ret r
  | inr offset_new =>
      res <- call (p_lseek64 real fd offset_new whence) ;;
      c <- check_fd fd ;;
      res <- (if c then
                res <- (if negb (res =? offset_new) then
                          set_errno EINVAL ;;
                          ret (-1)
                        else ret res) ;;
                base <- gets segment_offset ;;
                ret (wrap64 (res - base))
              else ret res) ;;
      our <- check_fd fd ;;
      dprint LOG_DBG our "%s(%d, %llu, %d) => %llu"
             [AStr "lseek64"; AInt fd; AInt offset; AInt whence; AInt res] ;;
      ret res
  end.

(** The status queries take the caller's buffer and give it back with
    the result. *)
Definition __xstat (x : Z) (path : string) (buf : stat) : M W (Z * stat) :=
  r <- call (p___xstat real x path buf) ;;
  let (res, buf) := r in
  len <- gets segment_len ;;
  let buf := set_st_size len buf in
  our <- check_name path ;;
  dprint LOG_DBG our "%s(%s, st_mode=%d, st_size=%ld, ...) => %d"
         [AStr "__xstat"; AStr path; AInt (st_mode buf); AInt (st_size buf);
          AInt res] ;;
  ret (res, buf).

Definition __xstat64 (x : Z) (path : string) (buf : stat)
  : M W (Z * stat) :=
  r <- call (p___xstat64 real x path buf) ;;
  let (res, buf) := r in
  len <- gets segment_len ;;
  let buf := set_st_size len buf in
  our <- check_name path ;;
  dprint LOG_DBG our "%s(%s, st_mode=%d, st_size=%lld, ...) => %d"
         [AStr "__xstat64"; AStr path; AInt (st_mode buf);
          AInt (st_size buf); AInt res] ;;
  ret (res, buf).

Definition fstat (fd : Z) (buf : stat) : M W (Z * stat) :=
  r <- call (p_fstat real fd buf) ;;
  let (res, buf) := r in
  len <- gets segment_len ;;
  let buf := set_st_size len buf in
  our <- check_fd fd ;;
  dprint LOG_DBG our "%s(%d, st_mode=%d, st_size=%ld, ...) => %d"
         [AStr "fstat"; AInt fd; AInt (st_mode buf); AInt (st_size buf);
          AInt res] ;;
  ret (res, buf).

Definition fstat64 (fd : Z) (buf : stat) : M W (Z * stat) :=
  r <- call (p_fstat64 real fd buf) ;;
  let (res, buf) := r in
  len <- gets segment_len ;;
  let buf := set_st_size len buf in
  our <- check_fd fd ;;
  dprint LOG_DBG our "%s(%d, st_mode=%d, st_size=%lld, ...) => %d"
         [AStr "fstat64"; AInt fd; AInt (st_mode buf); AInt (st_size buf);
          AInt res] ;;
  ret (res, buf).

Definition __fxstat64 (vers fd : Z) (buf : stat) : M W (Z * stat) :=
  r <- call (p___fxstat64 real vers fd buf) ;;
  let (res, buf) := r in
  len <- gets segment_len ;;
  let buf := set_st_size len buf in
  our <- check_fd fd ;;
  dprint LOG_DBG our "%s(%d, st_mode=%d, st_size=%lld, ...) => %d"
         [AStr "__fxstat64"; AInt fd; AInt (st_mode buf);
          AInt (st_size buf); AInt res] ;;
  ret (res, buf).

Definition fallocate (fd mode offset len : Z) : M W Z :=
  let offset_new := offset in
  c <- check_fd fd ;;
  pre <- (if c then
            seglen <- gets segment_len ;;
            if offset_new >? seglen then
              dprint LOG_ERR true "%s offset out of bounds"
                     [AStr "fallocate"] ;;
              ret (inl ENOSPC)
            else
              base <- gets segment_offset ;;
              ret (inr (wrap64 (offset_new + base)))
          else ret (inr offset_new)) ;;
  match pre with
  | inl r => ret r
  | inr offset_new =>
      res <- call (p_fallocate real fd mode offset_new len) ;;
      our <- check_fd fd ;;
      dprint LOG_DBG our "%s(%d, %d, %ld, %ld) => %ld"
             [AStr "fallocate"; AInt fd; AInt mode; AInt offset; AInt len;
              AInt res] ;;
      ret res
  end.

(** [pread64] gives back the buffer as the real read left it; on the
    early return the buffer is the caller's, untouched. *)
Definition pread64 (fd : Z) (buf : bytes) (count offset : Z)
  : M W (Z * bytes) :=
  let offset_new := offset in
  c <- check_fd fd ;;
  pre <- (if c then
            seglen <- gets segment_len ;;
            if offset_new >? seglen then
              dprint LOG_ERR true "%s offset out of bounds"
                     [AStr "pread64"] ;;
              ret (inl ENOSPC)
            else
              base <- gets segment_offset ;;
              ret (inr (wrap64 (offset_new + base)))
          else ret (inr offset_new)) ;;
  match pre with
  | inl r => ret (r, buf)
  | inr offset_new =>
      r <- call (p_pread64 real fd buf count offset_new) ;;
      let (res, buf) := r in
      our <- check_fd fd ;;
      dprint LOG_DBG our "%s(%d, %d, %llu) => %d"
             [AStr "pread64"; AInt fd; AInt count; AInt offset; AInt res] ;;
      ret (res, buf)
  end.

Definition pwrite64 (fd : Z) (buf : bytes) (count offset : Z) : M W Z :=
  let offset_new := offset in
  c <- check_fd fd ;;
  pre <- (if c then
            seglen <- gets segment_len ;;
            if offset_new >? seglen then
              dprint LOG_ERR true "%s offset out of bounds"
                     [AStr "pwrite64"] ;;
              ret (inl EINVAL)
            else
              base <- gets segment_offset ;;
              ret (inr (wrap64 (offset_new + base)))
          else ret (inr offset_new)) ;;
  match pre with
  | inl r => ret r
  | inr offset_new =>
      res <- call (p_pwrite64 real fd buf count offset_new) ;;
      our <- check_fd fd ;;
      dprint LOG_DBG our "%s(%d, %d, %llu) => %d"
             [AStr "pwrite64"; AInt fd; AInt count; AInt offset; AInt res] ;;
      ret res
  end.

End Wrappers.

(** ** Observing an outcome *)

(** The state in which a run ends, by return or by [exit]. *)
Definition final {W A} (o : outcome W A) : state W :=
  match o with
  | Ret _ s => s
  | Exit _ s => s
  end.

(** The value handed to the caller; [None] when the process exited. *)
Definition value {W A} (o : outcome W A) : option A :=
  match o with
  | Ret a _ => Some a
  | Exit _ _ => None
  end.

(** The process was terminated by [exit(code)]. *)
Definition exits {W A} (o : outcome W A) (code : Z) : Prop :=
  exists s', o = Exit code s'.

(** Membership of [fd] in the table of state [s], as [check_fd] sees it. *)
Definition tracked {W} (s : state W) (fd : Z) : bool :=
  check_fd_loop fd (target_fd s).

(** [path] is the target path of state [s], as [check_name] sees it. *)
Definition is_target {W} (s : state W) (path : string) : bool :=
  match target_name s with
  | Some t => String.eqb path t
  | None => false
  end.

(** All fields of a [struct stat] except [st_size] agree. *)
Definition same_but_size (a b : stat) : Prop :=
  st_dev a = st_dev b /\ st_ino a = st_ino b /\ st_nlink a = st_nlink b /\
  st_mode a = st_mode b /\ st_uid a = st_uid b /\ st_gid a = st_gid b /\
  st_rdev a = st_rdev b /\ st_blksize a = st_blksize b /\
  st_blocks a = st_blocks b /\ st_atime a = st_atime b /\
  st_mtime a = st_mtime b /\ st_ctime a = st_ctime b.

(** The fields of [FILE] as [init] reads them: the second and the third
    token of successive [strtok] calls. *)
Definition offset_field (args : string) : option string :=
  fst (strtok (snd (strtok args ",")) ",").

Definition length_field (args : string) : option string :=
  fst (strtok (snd (strtok (snd (strtok args ",")) ",")) ",").

(** A field is numeric when it is a non-empty run of decimal digits. *)
Fixpoint all_digits (s : string) : bool :=
  match s with
  | EmptyString => true
  | String c rest =>
      match digit_of c with
      | Some _ => all_digits rest
      | None => false
      end
  end.

Definition numeric (s : string) : bool :=
  match s with
  | EmptyString => false
  | _ => all_digits s
  end.

(** ** A scripted host

    An implementation of the real operations for running the wrappers on
    concrete inputs: the world is the list of calls received so far, and
    each call is answered from a fixed script. *)

Inductive event : Type :=
| EvOpen (path : string) (flags mode : Z)
| EvOpen64 (path : string) (flags mode : Z)
| EvOpen64_2 (path : string) (flags : Z)
| EvClose (fd : Z)
| EvLseek (fd offset whence : Z)
| EvLseek64 (fd offset whence : Z)
| EvXstat (x : Z) (path : string)
| EvXstat64 (x : Z) (path : string)
| EvFstat (fd : Z)
| EvFstat64 (fd : Z)
| EvFxstat64 (vers fd : Z)
| EvFallocate (fd mode offset len : Z)
| EvPread64 (fd count offset : Z)
| EvPwrite64 (fd count offset : Z).

Record script : Type := mkScript {
  answer : event -> Z;
  answer_errno : Z;
  answer_stat : stat;
  answer_bytes : bytes
}.

(** A call is recorded, answered by the script, and sets [errno] when the
    answer is negative. *)
Definition respond (sc : script) (ev : event) (h : host (list event))
  : Z * host (list event) :=
  let r := answer sc ev in
  (r, mkHost (if r <? 0 then answer_errno sc else errno h)
             (world h ++ [ev])%list).

Definition respond_stat (sc : script) (ev : event) (buf : stat)
  (h : host (list event)) : (Z * stat) * host (list event) :=
  let (r, h') := respond sc ev h in
  ((r, if r =? 0 then answer_stat sc else buf), h').

Definition scripted (sc : script) : real_ops (list event) :=
  mkReal (list event)
    (fun path flags mode => respond sc (EvOpen path flags mode))
    (fun path flags mode => respond sc (EvOpen64 path flags mode))
    (fun path flags => respond sc (EvOpen64_2 path flags))
    (fun fd => respond sc (EvClose fd))
    (fun fd offset whence => respond sc (EvLseek fd offset whence))
    (fun fd offset whence => respond sc (EvLseek64 fd offset whence))
    (fun x path buf => respond_stat sc (EvXstat x path) buf)
    (fun x path buf => respond_stat sc (EvXstat64 x path) buf)
    (fun fd buf => respond_stat sc (EvFstat fd) buf)
    (fun fd buf => respond_stat sc (EvFstat64 fd) buf)
    (fun vers fd buf => respond_stat sc (EvFxstat64 vers fd) buf)
    (fun fd mode offset len => respond sc (EvFallocate fd mode offset len))
    (fun fd buf count offset h =>
       let (r, h') := respond sc (EvPread64 fd count offset) h in
       ((r, if r <? 0 then buf else answer_bytes sc), h'))
    (fun fd buf count offset => respond sc (EvPwrite64 fd count offset)).

(** The window of the usage example in the header of [fawrap.c]:
    [FILE=disk.img,44040192,33554944]. *)
Definition example_FILE : string := "disk.img,44040192,33554944".

(** A [struct stat] of a regular file of 77595136 bytes. *)
Definition example_stat : stat :=
  mkStat 2049 131 1 33188 1000 1000 0 77595136 4096 151552
         1470000000 1470000000 1470000000.

(** A script whose every call succeeds with 0. *)
Definition all_zero : script := mkScript (fun _ => 0) 2 example_stat [].

(** A script whose every call fails with -1 and [errno] 2. *)
Definition all_fail : script := mkScript (fun _ => -1) 2 example_stat [].

(** A script that answers every call with the descriptor or count [r]. *)
Definition always (r : Z) : script := mkScript (fun _ => r) 2 example_stat [].

(** The state right after [init] under [example_FILE], with the table
    given. *)
Definition example_state (table : list Z) : state (list event) :=
  mkState (Some "disk.img") table 44040192 33554944 None 2 []
          (mkHost 0 []).

(** The state [dprint] leaves behind. *)
Definition after_dprint {W} (level : Z) (our : bool) (fmt : string)
  (args : list arg) (s : state W) : state W :=
  final (dprint level our fmt args s).

(** Two states that differ at most in what was logged. *)
Definition same_core {W} (s s' : state W) : Prop :=
  target_name s' = target_name s /\ target_fd s' = target_fd s /\
  segment_offset s' = segment_offset s /\ segment_len s' = segment_len s /\
  debug_level s' = debug_level s /\ sys s' = sys s.

(** The run [o] from [s] returned exactly the result of the real call
    [R] and left the process as that call left it: nothing but the log
    differs from [s] with the host of [R]. *)
Definition delegates {W A} (o : outcome W A) (s : state W)
  (R : A * host W) : Prop :=
  exists s', o = Ret (fst R) s' /\ same_core (set_sys (snd R) s) s'.

(** The run [o] from [s] returned the result of the real call [R], left
    the process as that call left it, and left [t] as the descriptor
    table. *)
Definition stores {W A} (o : outcome W A) (s : state W) (R : A * host W)
  (t : list Z) : Prop :=
  exists s', o = Ret (fst R) s' /\
             same_core (set_target_fd t (set_sys (snd R) s)) s'.

(** The run [o] from [s] returned [r] to the caller and made no real
    call: nothing but the log differs from [s]. *)
Definition rejects {W A} (o : outcome W A) (s : state W) (r : A) : Prop :=
  exists s', o = Ret r s' /\ same_core s s'.

(** The run [o] of a status query from [s] returned the status of the
    real query [R], and its buffer with [st_size] replaced by
    [segment_len] and every other field as the real query left it. *)
Definition size_overridden {W} (o : outcome W (Z * stat)) (s : state W)
  (R : (Z * stat) * host W) : Prop :=
  exists b s',
    o = Ret (fst (fst R), b) s' /\
    st_size b = segment_len s /\
    same_but_size b (snd (fst R)) /\
    same_core (set_sys (snd R) s) s'.

(** The window is representable: base and length are [off64_t] values
    and the end of the window does not overflow [off64_t]. *)
Definition window_fits {W} (s : state W) : Prop :=
  in_off64 (segment_offset s) /\ in_off64 (segment_len s) /\
  segment_offset s + segment_len s <= INT64_MAX.

(** The table has a free slot, that is, a slot holding 0. *)
Definition has_free_slot (slots : list Z) : Prop := In 0 slots.

(** The table is full: [MAX_FD] slots, none of them free. *)
Definition table_full (slots : list Z) : Prop :=
  List.length slots = MAX_FD /\ Forall (fun x => x <> 0) slots.

(** The run [o] from [s] returned, and the world is as the real call
    that produced [h] left it, with the descriptor table of [s]. *)
Definition reaches {W A} (o : outcome W A) (s : state W) (h : host W)
  : Prop :=
  exists r s', o = Ret r s' /\ world (sys s') = world h /\
               target_fd s' = target_fd s.

(** A field of [FILE] that is missing or not numeric. *)
Definition missing_or_not_numeric (field : option string) : Prop :=
  match field with
  | None => True
  | Some p => numeric p = false
  end.

(** A [struct stat] the caller has not filled in. *)
Definition blank_stat : stat := mkStat 0 0 0 0 0 0 0 0 0 0 0 0 0.

(** A table holding the descriptor 3 and nothing else. *)
Definition table_3 : list Z := 3 :: repeat 0 15.

(** A table holding sixteen descriptors. *)
Definition table_16 : list Z :=
  [3; 4; 5; 6; 7; 8; 9; 10; 11; 12; 13; 14; 15; 16; 17; 18].

(** The run [o] from [s] is exactly the real call [R]: its result is
    returned and nothing of the process changes but what the call
    changed; in particular nothing is logged. *)
Definition transparent {W A} (o : outcome W A) (s : state W)
  (R : A * host W) : Prop :=
  o = Ret (fst R) (set_sys (snd R) s).

(** The run [o] from [s] ended in [exit(code)] without a real call:
    nothing but the log differs from [s]. *)
Definition dies {W A} (o : outcome W A) (s : state W) (code : Z) : Prop :=
  exists s', o = Exit code s' /\ same_core s s'.

(** The number of free slots of a table. *)
Definition free_slots (slots : list Z) : nat := count_occ Z.eq_dec slots 0.

(** The table after the descriptors [fds] went through [add_fd] one
    after the other; [None] as soon as one of them finds the table
    full. *)
Fixpoint add_all (fds : list Z) (slots : list Z) : option (list Z) :=
  match fds with
  | [] => Some slots
  | fd :: rest =>
      match add_fd_loop fd slots with
      | Some t => add_all rest t
      | None => None
      end
  end.

(** The window configuration of [s'] is that of [s]. *)
Definition same_window {W} (s s' : state W) : Prop :=
  target_name s' = target_name s /\
  segment_offset s' = segment_offset s /\
  segment_len s' = segment_len s /\
  debug_level s' = debug_level s.

(** Every run of [m] ends, by return or by [exit], in a state related by
    [R] to the one it started from. *)
Definition keeps {W A} (R : state W -> state W -> Prop) (m : M W A)
  : Prop :=
  forall s, R s (final (m s)).

(** The descriptor table of [s'] is that of [s]. *)
Definition same_table {W} (s s' : state W) : Prop :=
  target_fd s' = target_fd s.

(** The fourth token of [FILE], as [init] reads it. *)
Definition mode_field (args : string) : option string :=
  fst (strtok
         (snd (strtok (snd (strtok (snd (strtok args ",")) ",")) ","))
         ",").

(** A run of [n] commas. *)
Fixpoint commas (n : nat) : string :=
  match n with
  | O => EmptyString
  | S n' => String "," (commas n')
  end.

(** No character of [s] is a comma. *)
Fixpoint comma_free (s : string) : bool :=
  match s with
  | EmptyString => true
  | String c rest => negb (Ascii.eqb c ",") && comma_free rest
  end.

(** The three lines [init] prints at level [LOG_INFO]. *)
Definition banner (name : option string) (off len : Z) : list line :=
  [mkLine "fawrap.so target file: %s"
          [match name with Some n => AStr n | None => AStr "" end];
   mkLine "fawrap.so      offset: %llu" [AInt off];
   mkLine len_format [AInt len]].

(** The number a string of decimal digits denotes, in positional
    notation: each digit counts for its value times the power of ten of
    its place. *)
Fixpoint decimal_value (s : string) : Z :=
  match s with
  | EmptyString => 0
  | String c rest =>
      match digit_of c with
      | Some d => d * 10 ^ Z.of_nat (String.length rest) + decimal_value rest
      | None => 0
      end
  end.

(** The run [o] from [s] returned to the caller without a real call:
    nothing but the log differs from [s].  What it returned is left
    open. *)
Definition stops {W A} (o : outcome W A) (s : state W) : Prop :=
  exists r s', o = Ret r s' /\ same_core s s'.

(** The state [s] with the line [l] printed: on standard output, and in
    the log file when it is open. *)
Definition printed {W} (l : line) (s : state W) : state W :=
  set_debug_stream
    (match debug_stream s with
     | Some f => Some (f ++ [l])%list
     | None => None
     end)
    (set_stdout (stdout s ++ [l])%list s).

(** A window at the very end of the [off64_t] range, as
    [FILE=disk.img,9223372036854775807,10] configures it, with
    descriptor 3 tracked. *)
Definition edge_state : state (list event) :=
  mkState (Some "disk.img") table_3 9223372036854775807 10 None 2 []
          (mkHost 0 []).

(** * Properties *)

(** ** Machine integers *)

Lemma wrap64_id : forall z, in_off64 z -> wrap64 z = z.
Proof.
  intros z [Hlo Hhi]. unfold wrap64, INT64_MIN, INT64_MAX in *.
  rewrite Z.mod_small; lia.
Qed.

Lemma wrap64_range : forall z, in_off64 (wrap64 z).
Proof.
  intro z. unfold in_off64, wrap64, INT64_MIN, INT64_MAX.
  pose proof (Z.mod_pos_bound (z + 2 ^ 63) (2 ^ 64) ltac:(lia)). lia.
Qed.

(** ** Laws of the monad used to run a wrapper *)

Section Run.

Context {W : Type}.
Implicit Types s : state W.

Lemma bind_ret : forall A B (a : A) (k : A -> M W B) s,
  bind (ret a) k s = k a s.
Proof. reflexivity. Qed.

Lemma bind_exit : forall A B c (k : A -> M W B) s,
  bind (exit c) k s = Exit c s.
Proof. reflexivity. Qed.

Lemma bind_gets : forall A B (f : state W -> A) (k : A -> M W B) s,
  bind (gets f) k s = k (f s) s.
Proof. reflexivity. Qed.

Lemma bind_modify : forall B (f : state W -> state W) (k : unit -> M W B) s,
  bind (modify f) k s = k tt (f s).
Proof. reflexivity. Qed.

Lemma bind_assoc : forall A B C (m : M W A) (k : A -> M W B)
    (k' : B -> M W C) s,
  bind (bind m k) k' s = bind m (fun a => bind (k a) k') s.
Proof.
  intros. unfold bind. destruct (m s); reflexivity.
Qed.

Lemma bind_call : forall A B (f : host W -> A * host W) (k : A -> M W B) s,
  bind (call f) k s = k (fst (f (sys s))) (set_sys (snd (f (sys s))) s).
Proof.
  intros. unfold bind, call. destruct (f (sys s)); reflexivity.
Qed.

Lemma dprint_eq : forall level our fmt args s,
  dprint level our fmt args s = Ret tt (after_dprint level our fmt args s).
Proof.
  intros. unfold after_dprint, dprint.
  destruct (_ && _ && _); reflexivity.
Qed.

Lemma bind_dprint : forall B level our fmt args (k : unit -> M W B) s,
  bind (dprint level our fmt args) k s
  = k tt (after_dprint level our fmt args s).
Proof.
  intros. unfold bind. rewrite dprint_eq. reflexivity.
Qed.

Lemma after_dprint_core : forall level our fmt args s,
  same_core s (after_dprint level our fmt args s).
Proof.
  intros. unfold after_dprint, dprint, same_core.
  destruct (_ && _ && _); simpl; repeat split; reflexivity.
Qed.

Lemma same_core_refl : forall s, same_core s s.
Proof. intro s. unfold same_core. repeat split; reflexivity. Qed.

Lemma same_core_trans : forall s1 s2 s3,
  same_core s1 s2 -> same_core s2 s3 -> same_core s1 s3.
Proof.
  unfold same_core. intros s1 s2 s3 H12 H23.
  destruct H12 as (a1 & a2 & a3 & a4 & a5 & a6).
  destruct H23 as (b1 & b2 & b3 & b4 & b5 & b6).
  repeat split; congruence.
Qed.

Lemma after_dprint_target_fd : forall level our fmt args s,
  target_fd (after_dprint level our fmt args s) = target_fd s.
Proof. intros. apply after_dprint_core. Qed.

Lemma after_dprint_target_name : forall level our fmt args s,
  target_name (after_dprint level our fmt args s) = target_name s.
Proof. intros. apply after_dprint_core. Qed.

Lemma after_dprint_segment_offset : forall level our fmt args s,
  segment_offset (after_dprint level our fmt args s) = segment_offset s.
Proof. intros. apply after_dprint_core. Qed.

Lemma after_dprint_segment_len : forall level our fmt args s,
  segment_len (after_dprint level our fmt args s) = segment_len s.
Proof. intros. apply after_dprint_core. Qed.

Lemma after_dprint_debug_level : forall level our fmt args s,
  debug_level (after_dprint level our fmt args s) = debug_level s.
Proof. intros. apply after_dprint_core. Qed.

Lemma after_dprint_sys : forall level our fmt args s,
  sys (after_dprint level our fmt args s) = sys s.
Proof. intros. apply after_dprint_core. Qed.

End Run.

Create Rewrite HintDb run.
#[global] Hint Rewrite @bind_assoc @bind_ret @bind_exit @bind_gets
  @bind_modify @bind_call @bind_dprint : run.
#[global] Hint Rewrite @after_dprint_target_fd @after_dprint_target_name
  @after_dprint_segment_offset @after_dprint_segment_len
  @after_dprint_debug_level @after_dprint_sys : run.

(** Runs a wrapper symbolically up to the next undecided test. *)
Ltac run :=
  unfold check_fd, check_name, set_errno;
  repeat (autorewrite with run; cbn [fst snd value final
            target_name target_fd segment_offset segment_len debug_level
            debug_stream stdout sys set_sys set_target_fd set_stdout
            set_debug_stream set_target_name set_segment_offset
            set_segment_len set_debug_level errno world negb]).

(** ** The descriptor table *)

Lemma check_fd_loop_In : forall fd slots,
  check_fd_loop fd slots = true <-> In fd slots.
Proof.
  intros fd slots. induction slots as [|x rest IH]; simpl.
  - split; [discriminate | contradiction].
  - destruct (fd =? x) eqn:E.
    + apply Z.eqb_eq in E. split; auto.
    + apply Z.eqb_neq in E. rewrite IH. split; [auto | intros [H|H]; congruence].
Qed.

Lemma add_fd_loop_full : forall fd slots,
  add_fd_loop fd slots = None <-> Forall (fun x => x <> 0) slots.
Proof.
  intros fd slots. induction slots as [|x rest IH]; simpl.
  - split; auto.
  - destruct (x =? 0) eqn:E.
    + apply Z.eqb_eq in E. split; [discriminate|].
      intro H. inversion H; subst. congruence.
    + apply Z.eqb_neq in E. destruct (add_fd_loop fd rest) as [t|].
      * split; [discriminate|]. intro H. inversion H; subst.
        apply IH in H3. discriminate.
      * split; auto. intros _. constructor; [assumption | now apply IH].
Qed.

Lemma add_fd_loop_free : forall fd slots,
  has_free_slot slots -> exists t, add_fd_loop fd slots = Some t.
Proof.
  intros fd slots Hfree.
  destruct (add_fd_loop fd slots) as [t|] eqn:E; [eauto|].
  apply add_fd_loop_full in E. rewrite Forall_forall in E.
  exfalso. now apply (E 0 Hfree).
Qed.

Lemma add_fd_loop_stored : forall fd slots t,
  add_fd_loop fd slots = Some t ->
  In fd t /\ List.length t = List.length slots.
Proof.
  intros fd slots. induction slots as [|x rest IH]; simpl; intros t H.
  - discriminate.
  - destruct (x =? 0).
    + inversion H; subst. simpl. auto.
    + destruct (add_fd_loop fd rest) as [t'|]; [|discriminate].
      inversion H; subst. destruct (IH t' eq_refl) as [Hin Hlen].
      simpl. auto.
Qed.

Lemma add_fd_loop_keeps : forall fd slots t y,
  add_fd_loop fd slots = Some t -> y <> 0 -> In y slots -> In y t.
Proof.
  intros fd slots. induction slots as [|x rest IH]; simpl; intros t y H Hy Hin.
  - contradiction.
  - destruct (x =? 0) eqn:E.
    + apply Z.eqb_eq in E. inversion H; subst.
      destruct Hin as [Hin|Hin]; [congruence | now right].
    + destruct (add_fd_loop fd rest) as [t'|]; [|discriminate].
      inversion H; subst. destruct Hin as [Hin|Hin]; [now left|].
      right. now apply (IH t').
Qed.

Lemma remove_fd_loop_present : forall fd slots,
  In fd slots -> exists t, remove_fd_loop fd slots = Some t.
Proof.
  intros fd slots. induction slots as [|x rest IH]; simpl; intro Hin.
  - contradiction.
  - destruct (fd =? x) eqn:E; [eauto|].
    apply Z.eqb_neq in E. destruct Hin as [Hin|Hin]; [congruence|].
    destruct (IH Hin) as [t Ht]. rewrite Ht. eauto.
Qed.

Lemma remove_fd_loop_absent : forall fd slots,
  ~ In fd slots -> remove_fd_loop fd slots = None.
Proof.
  intros fd slots. induction slots as [|x rest IH]; simpl; intro Hn.
  - reflexivity.
  - destruct (fd =? x) eqn:E.
    + apply Z.eqb_eq in E. exfalso. auto.
    + rewrite IH; auto.
Qed.

(** Removing a descriptor that occurs once takes it out of the table. *)
Lemma remove_fd_loop_gone : forall fd slots t,
  fd <> 0 -> count_occ Z.eq_dec slots fd = 1%nat ->
  remove_fd_loop fd slots = Some t -> ~ In fd t.
Proof.
  intros fd slots. induction slots as [|x rest IH]; simpl; intros t Hfd Hc H.
  - discriminate.
  - destruct (Z.eq_dec x fd) as [E|E].
    + subst x. rewrite Z.eqb_refl in H. inversion H; subst.
      assert (Hrest : count_occ Z.eq_dec rest fd = 0%nat) by lia.
      apply count_occ_not_In in Hrest.
      intros [Hin|Hin]; [congruence | contradiction].
    + assert (E' : (fd =? x) = false) by (apply Z.eqb_neq; congruence).
      rewrite E' in H.
      destruct (remove_fd_loop fd rest) as [t'|]; [|discriminate].
      inversion H; subst. intros [Hin|Hin]; [congruence|].
      now apply (IH t' Hfd Hc eq_refl).
Qed.

(** ** The offset-bearing wrappers, case by case *)

Section Offsets.

Context {W : Type} (real : real_ops W).
Implicit Types s : state W.

(** Closes a goal [exists s', Ret r t = Ret r s' /\ same_core u s'] where
    [t] is [u] after some logging. *)
Ltac logged :=
  eexists; split; [reflexivity|];
  repeat (first [ apply same_core_refl
                | eapply same_core_trans; [|apply after_dprint_core] ]).

Lemma pwrite64_untracked : forall fd buf count o s,
  tracked s fd = false ->
  delegates (pwrite64 real fd buf count o s) s
            (p_pwrite64 real fd buf count o (sys s)).
Proof.
  intros fd buf count o s Ht. unfold delegates, pwrite64, tracked in *.
  run. rewrite Ht. run. logged.
Qed.

Lemma pwrite64_tracked_in : forall fd buf count o s,
  tracked s fd = true -> o <= segment_len s ->
  in_off64 (o + segment_offset s) ->
  delegates (pwrite64 real fd buf count o s) s
            (p_pwrite64 real fd buf count (o + segment_offset s) (sys s)).
Proof.
  intros fd buf count o s Ht Ho Hr. unfold delegates, pwrite64, tracked in *.
  run. rewrite Ht. run.
  destruct (o >? segment_len s) eqn:E; [lia|].
  run. rewrite (wrap64_id _ Hr). logged.
Qed.

Lemma pwrite64_tracked_out : forall fd buf count o s,
  tracked s fd = true -> segment_len s < o ->
  rejects (pwrite64 real fd buf count o s) s EINVAL.
Proof.
  intros fd buf count o s Ht Ho. unfold rejects, pwrite64, tracked in *.
  run. rewrite Ht. run.
  destruct (o >? segment_len s) eqn:E; [|lia].
  run. logged.
Qed.

Lemma pread64_untracked : forall fd buf count o s,
  tracked s fd = false ->
  delegates (pread64 real fd buf count o s) s
            (p_pread64 real fd buf count o (sys s)).
Proof.
  intros fd buf count o s Ht. unfold delegates, pread64, tracked in *.
  run. rewrite Ht. run.
  destruct (p_pread64 real fd buf count o (sys s)) as [[r b] h].
  run. logged.
Qed.

Lemma pread64_tracked_in : forall fd buf count o s,
  tracked s fd = true -> o <= segment_len s ->
  in_off64 (o + segment_offset s) ->
  delegates (pread64 real fd buf count o s) s
            (p_pread64 real fd buf count (o + segment_offset s) (sys s)).
Proof.
  intros fd buf count o s Ht Ho Hr. unfold delegates, pread64, tracked in *.
  run. rewrite Ht. run.
  destruct (o >? segment_len s) eqn:E; [lia|].
  run. rewrite (wrap64_id _ Hr).
  destruct (p_pread64 real fd buf count _ (sys s)) as [[r b] h].
  run. logged.
Qed.

Lemma pread64_tracked_out : forall fd buf count o s,
  tracked s fd = true -> segment_len s < o ->
  rejects (pread64 real fd buf count o s) s (ENOSPC, buf).
Proof.
  intros fd buf count o s Ht Ho. unfold rejects, pread64, tracked in *.
  run. rewrite Ht. run.
  destruct (o >? segment_len s) eqn:E; [|lia].
  run. logged.
Qed.

Lemma fallocate_untracked : forall fd mode o len s,
  tracked s fd = false ->
  delegates (fallocate real fd mode o len s) s
            (p_fallocate real fd mode o len (sys s)).
Proof.
  intros fd mode o len s Ht. unfold delegates, fallocate, tracked in *.
  run. rewrite Ht. run. logged.
Qed.

Lemma fallocate_tracked_in : forall fd mode o len s,
  tracked s fd = true -> o <= segment_len s ->
  in_off64 (o + segment_offset s) ->
  delegates (fallocate real fd mode o len s) s
            (p_fallocate real fd mode (o + segment_offset s) len (sys s)).
Proof.
  intros fd mode o len s Ht Ho Hr. unfold delegates, fallocate, tracked in *.
  run. rewrite Ht. run.
  destruct (o >? segment_len s) eqn:E; [lia|].
  run. rewrite (wrap64_id _ Hr). logged.
Qed.

Lemma fallocate_tracked_out : forall fd mode o len s,
  tracked s fd = true -> segment_len s < o ->
  rejects (fallocate real fd mode o len s) s ENOSPC.
Proof.
  intros fd mode o len s Ht Ho. unfold rejects, fallocate, tracked in *.
  run. rewrite Ht. run.
  destruct (o >? segment_len s) eqn:E; [|lia].
  run. logged.
Qed.

(** [lseek] and [lseek64]. *)

Lemma lseek_untracked : forall fd o whence s,
  tracked s fd = false ->
  delegates (lseek real fd o whence s) s (p_lseek real fd o whence (sys s)).
Proof.
  intros fd o whence s Ht. unfold delegates, lseek, tracked in *.
  run. rewrite Ht. run. rewrite Ht. run. logged.
Qed.

Lemma lseek_tracked_whence : forall fd o whence s,
  tracked s fd = true -> whence <> SEEK_SET ->
  exits (lseek real fd o whence s) 1.
Proof.
  intros fd o whence s Ht Hw. unfold exits, lseek, tracked in *.
  apply Z.eqb_neq in Hw.
  run. rewrite Ht. run. rewrite Hw. run. eexists; reflexivity.
Qed.

Lemma lseek_tracked_out : forall fd o s,
  tracked s fd = true -> segment_len s < o ->
  rejects (lseek real fd o SEEK_SET s) s EINVAL.
Proof.
  intros fd o s Ht Ho. unfold rejects, lseek, tracked in *.
  run. rewrite Ht. rewrite Z.eqb_refl. run.
  destruct (o >? segment_len s) eqn:E; [|lia].
  run. logged.
Qed.

(** In bounds, the real seek is asked for [o + segment_offset]; when it
    answers that position the caller gets [o] back. *)
Lemma lseek_tracked_match : forall fd o s,
  tracked s fd = true -> o <= segment_len s -> in_off64 o ->
  in_off64 (o + segment_offset s) ->
  fst (p_lseek real fd (o + segment_offset s) SEEK_SET (sys s))
  = o + segment_offset s ->
  exists s',
    lseek real fd o SEEK_SET s = Ret o s' /\
    same_core
      (set_sys (snd (p_lseek real fd (o + segment_offset s) SEEK_SET (sys s)))
               s) s'.
Proof.
  intros fd o s Ht Ho Hin Hr Hres. unfold lseek, tracked in *.
  run. rewrite Ht. rewrite Z.eqb_refl. run.
  destruct (o >? segment_len s) eqn:E; [lia|].
  run. rewrite (wrap64_id _ Hr). rewrite Ht. rewrite Hres, Z.eqb_refl.
  run. replace (o + segment_offset s - segment_offset s) with o by lia.
  rewrite (wrap64_id _ Hin). logged.
Qed.

(** When the real seek answers anything else, [errno] becomes [EINVAL]
    and the caller gets -1 minus [segment_offset]. *)
Lemma lseek_tracked_mismatch : forall fd o s,
  tracked s fd = true -> o <= segment_len s ->
  in_off64 (o + segment_offset s) ->
  fst (p_lseek real fd (o + segment_offset s) SEEK_SET (sys s))
  <> o + segment_offset s ->
  exists s',
    lseek real fd o SEEK_SET s = Ret (wrap64 (-1 - segment_offset s)) s' /\
    same_core
      (set_sys
         (mkHost EINVAL
            (world
               (snd (p_lseek real fd (o + segment_offset s) SEEK_SET
                             (sys s)))))
         s) s'.
Proof.
  intros fd o s Ht Ho Hr Hres. unfold lseek, tracked in *.
  apply Z.eqb_neq in Hres.
  run. rewrite Ht. rewrite Z.eqb_refl. run.
  destruct (o >? segment_len s) eqn:E; [lia|].
  run. rewrite (wrap64_id _ Hr). rewrite Ht. rewrite Hres.
  run. unfold modify. run. logged.
Qed.

Lemma lseek64_untracked : forall fd o whence s,
  tracked s fd = false ->
  delegates (lseek64 real fd o whence s) s
            (p_lseek64 real fd o whence (sys s)).
Proof.
  intros fd o whence s Ht. unfold delegates, lseek64, tracked in *.
  run. rewrite Ht. run. rewrite Ht. run. logged.
Qed.

Lemma lseek64_tracked_whence : forall fd o whence s,
  tracked s fd = true -> whence <> SEEK_SET ->
  exits (lseek64 real fd o whence s) 1.
Proof.
  intros fd o whence s Ht Hw. unfold exits, lseek64, tracked in *.
  apply Z.eqb_neq in Hw.
  run. rewrite Ht. run. rewrite Hw. run. eexists; reflexivity.
Qed.

Lemma lseek64_tracked_out : forall fd o s,
  tracked s fd = true -> segment_len s < o ->
  rejects (lseek64 real fd o SEEK_SET s) s EINVAL.
Proof.
  intros fd o s Ht Ho. unfold rejects, lseek64, tracked in *.
  run. rewrite Ht. rewrite Z.eqb_refl. run.
  destruct (o >? segment_len s) eqn:E; [|lia].
  run. logged.
Qed.

Lemma lseek64_tracked_match : forall fd o s,
  tracked s fd = true -> o <= segment_len s -> in_off64 o ->
  in_off64 (o + segment_offset s) ->
  fst (p_lseek64 real fd (o + segment_offset s) SEEK_SET (sys s))
  = o + segment_offset s ->
  exists s',
    lseek64 real fd o SEEK_SET s = Ret o s' /\
    same_core
      (set_sys
         (snd (p_lseek64 real fd (o + segment_offset s) SEEK_SET (sys s)))
         s) s'.
Proof.
  intros fd o s Ht Ho Hin Hr Hres. unfold lseek64, tracked in *.
  run. rewrite Ht. rewrite Z.eqb_refl. run.
  destruct (o >? segment_len s) eqn:E; [lia|].
  run. rewrite (wrap64_id _ Hr). rewrite Ht. rewrite Hres, Z.eqb_refl.
  run. replace (o + segment_offset s - segment_offset s) with o by lia.
  rewrite (wrap64_id _ Hin). logged.
Qed.

Lemma lseek64_tracked_mismatch : forall fd o s,
  tracked s fd = true -> o <= segment_len s ->
  in_off64 (o + segment_offset s) ->
  fst (p_lseek64 real fd (o + segment_offset s) SEEK_SET (sys s))
  <> o + segment_offset s ->
  exists s',
    lseek64 real fd o SEEK_SET s = Ret (wrap64 (-1 - segment_offset s)) s' /\
    same_core
      (set_sys
         (mkHost EINVAL
            (world
               (snd (p_lseek64 real fd (o + segment_offset s) SEEK_SET
                               (sys s)))))
         s) s'.
Proof.
  intros fd o s Ht Ho Hr Hres. unfold lseek64, tracked in *.
  apply Z.eqb_neq in Hres.
  run. rewrite Ht. rewrite Z.eqb_refl. run.
  destruct (o >? segment_len s) eqn:E; [lia|].
  run. rewrite (wrap64_id _ Hr). rewrite Ht. rewrite Hres.
  run. unfold modify. run. logged.
Qed.

End Offsets.

(** ** Status queries, open and close *)

Section Lifecycle.

Context {W : Type} (real : real_ops W).
Implicit Types s : state W.

Ltac logged :=
  eexists; split; [reflexivity|];
  repeat (first [ apply same_core_refl
                | eapply same_core_trans; [|apply after_dprint_core] ]).

Lemma set_st_size_same : forall v b, same_but_size (set_st_size v b) b.
Proof. intros v b. unfold same_but_size. simpl. repeat split. Qed.

Ltac overridden :=
  eexists; eexists; split; [reflexivity|];
  split; [reflexivity|];
  split; [apply set_st_size_same|];
  apply after_dprint_core.

Lemma xstat_overrides : forall x path buf s,
  size_overridden (__xstat real x path buf s) s
                  (p___xstat real x path buf (sys s)).
Proof.
  intros x path buf s. unfold size_overridden, __xstat. run.
  destruct (p___xstat real x path buf (sys s)) as [[r b] h]. run. overridden.
Qed.

Lemma xstat64_overrides : forall x path buf s,
  size_overridden (__xstat64 real x path buf s) s
                  (p___xstat64 real x path buf (sys s)).
Proof.
  intros x path buf s. unfold size_overridden, __xstat64. run.
  destruct (p___xstat64 real x path buf (sys s)) as [[r b] h]. run.
  overridden.
Qed.

Lemma fstat_overrides : forall fd buf s,
  size_overridden (fstat real fd buf s) s (p_fstat real fd buf (sys s)).
Proof.
  intros fd buf s. unfold size_overridden, fstat. run.
  destruct (p_fstat real fd buf (sys s)) as [[r b] h]. run. overridden.
Qed.

Lemma fstat64_overrides : forall fd buf s,
  size_overridden (fstat64 real fd buf s) s (p_fstat64 real fd buf (sys s)).
Proof.
  intros fd buf s. unfold size_overridden, fstat64. run.
  destruct (p_fstat64 real fd buf (sys s)) as [[r b] h]. run. overridden.
Qed.

Lemma fxstat64_overrides : forall vers fd buf s,
  size_overridden (__fxstat64 real vers fd buf s) s
                  (p___fxstat64 real vers fd buf (sys s)).
Proof.
  intros vers fd buf s. unfold size_overridden, __fxstat64. run.
  destruct (p___fxstat64 real vers fd buf (sys s)) as [[r b] h]. run.
  overridden.
Qed.

Ltac stored :=
  eexists; split; [reflexivity|];
  unfold same_core; cbn [target_name target_fd segment_offset segment_len
                          debug_level sys set_target_fd set_sys];
  autorewrite with run; repeat split; reflexivity.

Lemma open_other : forall path flags m s,
  is_target s path = false ->
  delegates (open real path flags m s) s
            (p_open real path flags (creation_mode flags m) (sys s)).
Proof.
  intros path flags m s Hn. unfold delegates, open, is_target in *.
  run. rewrite Hn. run. logged.
Qed.

Lemma open_target_stores : forall path flags m s t,
  is_target s path = true ->
  add_fd_loop
    (fst (p_open real path flags (creation_mode flags m) (sys s)))
    (target_fd s) = Some t ->
  stores (open real path flags m s) s
         (p_open real path flags (creation_mode flags m) (sys s)) t.
Proof.
  intros path flags m s t Hn Hadd. unfold stores, open, is_target in *.
  run. rewrite Hn. unfold add_fd, bind. run. rewrite Hadd. stored.
Qed.

Lemma open_target_full : forall path flags m s,
  is_target s path = true ->
  Forall (fun x => x <> 0) (target_fd s) ->
  exits (open real path flags m s) 1.
Proof.
  intros path flags m s Hn Hfull. unfold exits, open, is_target in *.
  run. rewrite Hn. unfold add_fd, bind at 1. run.
  rewrite (proj2 (add_fd_loop_full _ _) Hfull).
  run. eexists; reflexivity.
Qed.

Lemma open64_other : forall path flags m s,
  is_target s path = false ->
  delegates (open64 real path flags m s) s
            (p_open64 real path flags (creation_mode flags m) (sys s)).
Proof.
  intros path flags m s Hn. unfold delegates, open64, is_target in *.
  run. rewrite Hn. run. logged.
Qed.

Lemma open64_target_stores : forall path flags m s t,
  is_target s path = true ->
  add_fd_loop
    (fst (p_open64 real path flags (creation_mode flags m) (sys s)))
    (target_fd s) = Some t ->
  stores (open64 real path flags m s) s
         (p_open64 real path flags (creation_mode flags m) (sys s)) t.
Proof.
  intros path flags m s t Hn Hadd. unfold stores, open64, is_target in *.
  run. rewrite Hn. unfold add_fd, bind. run. rewrite Hadd. stored.
Qed.

Lemma open64_target_full : forall path flags m s,
  is_target s path = true ->
  Forall (fun x => x <> 0) (target_fd s) ->
  exits (open64 real path flags m s) 1.
Proof.
  intros path flags m s Hn Hfull. unfold exits, open64, is_target in *.
  run. rewrite Hn. unfold add_fd, bind at 1. run.
  rewrite (proj2 (add_fd_loop_full _ _) Hfull).
  run. eexists; reflexivity.
Qed.

Lemma open64_2_other : forall path flags s,
  is_target s path = false ->
  delegates (__open64_2 real path flags s) s
            (p___open64_2 real path flags (sys s)).
Proof.
  intros path flags s Hn. unfold delegates, __open64_2, is_target in *.
  run. rewrite Hn. run. logged.
Qed.

Lemma open64_2_target_stores : forall path flags s t,
  is_target s path = true ->
  add_fd_loop (fst (p___open64_2 real path flags (sys s))) (target_fd s)
  = Some t ->
  stores (__open64_2 real path flags s) s
         (p___open64_2 real path flags (sys s)) t.
Proof.
  intros path flags s t Hn Hadd. unfold stores, __open64_2, is_target in *.
  run. rewrite Hn. unfold add_fd, bind. run. rewrite Hadd. stored.
Qed.

Lemma open64_2_target_full : forall path flags s,
  is_target s path = true ->
  Forall (fun x => x <> 0) (target_fd s) ->
  exits (__open64_2 real path flags s) 1.
Proof.
  intros path flags s Hn Hfull. unfold exits, __open64_2, is_target in *.
  run. rewrite Hn. unfold add_fd, bind at 1. run.
  rewrite (proj2 (add_fd_loop_full _ _) Hfull).
  run. eexists; reflexivity.
Qed.

Lemma close_untracked : forall fd s,
  tracked s fd = false ->
  delegates (close real fd s) s (p_close real fd (sys s)).
Proof.
  intros fd s Ht. unfold delegates, close, tracked in *.
  run. rewrite Ht. run. logged.
Qed.

Lemma close_tracked : forall fd s,
  tracked s fd = true ->
  exists t, remove_fd_loop fd (target_fd s) = Some t /\
            stores (close real fd s) s (p_close real fd (sys s)) t.
Proof.
  intros fd s Ht. unfold stores, close, tracked in *.
  destruct (remove_fd_loop_present fd (target_fd s)) as [t Hrm].
  { now apply check_fd_loop_In. }
  exists t. split; [assumption|].
  run. rewrite Ht. unfold remove_fd, bind. run. rewrite Hrm.
  stored.
Qed.

(** Closing a tracked descriptor that sits in one slot leaves it
    untracked, whatever the real close returned. *)
Lemma close_untracks : forall fd s,
  tracked s fd = true -> fd <> 0 ->
  count_occ Z.eq_dec (target_fd s) fd = 1%nat ->
  exists s', close real fd s = Ret (fst (p_close real fd (sys s))) s' /\
             tracked s' fd = false.
Proof.
  intros fd s Ht Hfd Hc.
  destruct (close_tracked fd s Ht) as (t & Hrm & s' & Hrun & _ & Hfd' & _).
  exists s'. split; [exact Hrun|].
  unfold tracked. rewrite Hfd'. simpl.
  destruct (check_fd_loop fd t) eqn:E; [|reflexivity].
  apply check_fd_loop_In in E.
  exfalso. now apply (remove_fd_loop_gone fd _ t Hfd Hc Hrm).
Qed.

End Lifecycle.

(** ** The constructor *)

Lemma bind_strtoull_call : forall (W B : Type) p (k : Z -> M W B) s,
  bind (strtoull_call p) k s
  = k (strtoull p) (set_sys (after_strtoull p (sys s)) s).
Proof.
  intros W B p k s. unfold strtoull_call, after_strtoull, set_errno.
  destruct (strtoull_overflows p); run; unfold modify; run.
  - reflexivity.
  - destruct s. reflexivity.
Qed.

#[global] Hint Rewrite @bind_strtoull_call : run.

Section Init.

Context {W : Type}.
Implicit Types s : state W.

Lemma strtok_none_rest : forall a delim,
  fst (strtok a delim) = None -> snd (strtok a delim) = EmptyString.
Proof.
  intros a delim. unfold strtok.
  destruct (skip_delims delim a) as [|c r]; [reflexivity|].
  destruct (take_token delim (String c r)). discriminate.
Qed.

Lemma strtok_empty : forall delim,
  strtok EmptyString delim = (None, EmptyString).
Proof. reflexivity. Qed.

(** Without a first token there is no second one. *)
Lemma offset_field_needs_name : forall a,
  fst (strtok a ",") = None -> offset_field a = None.
Proof.
  intros a H. unfold offset_field.
  rewrite (strtok_none_rest _ _ H). reflexivity.
Qed.

Lemma init_absent : forall fopen_ok s, exits (init None fopen_ok s) 1.
Proof.
  intros fopen_ok s. unfold exits, init, fini. run.
  unfold bind. destruct (debug_stream _); eexists; reflexivity.
Qed.

Lemma init_offset_missing : forall a fopen_ok s,
  offset_field a = None -> exits (init (Some a) fopen_ok s) 1.
Proof.
  intros a fopen_ok s H. unfold exits, init, offset_field in *.
  destruct (strtok a ",") as [tok0 k0]. simpl in H.
  destruct (strtok k0 ",") as [p1 k1]. simpl in H. subst p1.
  run. eexists; reflexivity.
Qed.

Lemma init_length_missing : forall a fopen_ok s,
  length_field a = None -> exits (init (Some a) fopen_ok s) 1.
Proof.
  intros a fopen_ok s H. unfold exits, init, length_field in *.
  destruct (strtok a ",") as [tok0 k0]. simpl in H.
  destruct (strtok k0 ",") as [p1 k1]. simpl in H.
  destruct (strtok k1 ",") as [p2 k2]. simpl in H. subst p2.
  destruct p1 as [p|]; run; eexists; reflexivity.
Qed.

(** Once both numeric fields are present, nothing about their text can
    stop [init]: it returns with whatever [strtoull] made of them. *)
Lemma init_present : forall a p1 p2 s,
  offset_field a = Some p1 -> length_field a = Some p2 ->
  exists s',
    init (Some a) true s = Ret tt s' /\
    target_name s' = fst (strtok a ",") /\
    target_fd s' = repeat 0 MAX_FD /\
    segment_offset s' = wrap64 (strtoull p1) /\
    segment_len s' = wrap64 (strtoull p2) /\
    sys s' = after_strtoull p2 (after_strtoull p1 (sys s)).
Proof.
  intros a p1 p2 s H1 H2. unfold init, offset_field, length_field in *.
  destruct (strtok a ",") as [tok0 k0]. simpl in H1, H2.
  destruct (strtok k0 ",") as [q1 k1]. simpl in H1, H2. subst q1.
  destruct (strtok k1 ",") as [q2 k2]. simpl in H2. subst q2.
  destruct (strtok k2 ",") as [p3 k3].
  run.
  destruct p3 as [p|];
    [destruct (String.eqb p "d"); [|destruct (String.eqb p "i")]|];
    run;
    change (LOG_DBG >=? LOG_INFO) with true;
    change (LOG_INFO >=? LOG_INFO) with true;
    try (destruct (debug_level s >=? LOG_INFO));
    run; rewrite dprint_eq; (eexists; split; [reflexivity|]);
    run; repeat split; reflexivity.
Qed.

(** A run of [init] that returns leaves a target name behind. *)
Lemma init_ret_target_name : forall env fopen_ok s s',
  init env fopen_ok s = Ret tt s' -> target_name s' <> None.
Proof.
  intros env fopen_ok s s' H.
  destruct env as [a|].
  2:{ destruct (init_absent fopen_ok s) as [x Hx]. congruence. }
  destruct (offset_field a) as [p1|] eqn:E1.
  2:{ destruct (init_offset_missing a fopen_ok s E1) as [x Hx]. congruence. }
  destruct (length_field a) as [p2|] eqn:E2.
  2:{ destruct (init_length_missing a fopen_ok s E2) as [x Hx]. congruence. }
  destruct (fst (strtok a ",")) as [t|] eqn:E0.
  2:{ rewrite (offset_field_needs_name _ E0) in E1. discriminate. }
  revert H. unfold init, offset_field, length_field in *.
  destruct (strtok a ",") as [tok0 k0]. simpl in E0, E1, E2. subst tok0.
  destruct (strtok k0 ",") as [q1 k1]. simpl in E1, E2. subst q1.
  destruct (strtok k1 ",") as [q2 k2]. simpl in E2. subst q2.
  destruct (strtok k2 ",") as [p3 k3].
  destruct p3 as [p|];
    [destruct (String.eqb p "d"); [|destruct (String.eqb p "i")]|];
    run;
    change (LOG_DBG >=? LOG_INFO) with true;
    change (LOG_INFO >=? LOG_INFO) with true;
    try (destruct (debug_level s >=? LOG_INFO));
    try (destruct fopen_ok);
    run; try discriminate;
    rewrite dprint_eq; intro H; inversion H; subst;
    run; discriminate.
Qed.

End Init.

(** * The claims *)

(** ** Status queries *)

(** C7.  A status query ([__xstat], [__xstat64] by path; [fstat],
    [fstat64], [__fxstat64] by descriptor) against the target path or a
    tracked descriptor calls the real query with the caller's arguments
    and returns its status; in the buffer handed back [st_size] is
    [segment_len], whatever size the real query reported, and every other
    field is as the real query left it. *)
Theorem stat_reports_window_length :
  forall (W : Type) (real : real_ops W) (s : state W)
         (x vers : Z) (path : string) (fd : Z) (buf : stat),
    is_target s path = true ->
    tracked s fd = true ->
    size_overridden (__xstat real x path buf s) s
                    (p___xstat real x path buf (sys s)) /\
    size_overridden (__xstat64 real x path buf s) s
                    (p___xstat64 real x path buf (sys s)) /\
    size_overridden (fstat real fd buf s) s
                    (p_fstat real fd buf (sys s)) /\
    size_overridden (fstat64 real fd buf s) s
                    (p_fstat64 real fd buf (sys s)) /\
    size_overridden (__fxstat64 real vers fd buf s) s
                    (p___fxstat64 real vers fd buf (sys s)).
Proof.
  intros W real s x vers path fd buf _ _.
  repeat split.
  - apply xstat_overrides.
  - apply xstat64_overrides.
  - apply fstat_overrides.
  - apply fstat64_overrides.
  - apply fxstat64_overrides.
Qed.

Lemma stat_reports_window_length_witness :
  let s := example_state table_3 in
  is_target s "disk.img" = true /\
  tracked s 3 = true /\
  size_overridden (fstat (scripted all_zero) 3 blank_stat s) s
                  (p_fstat (scripted all_zero) 3 blank_stat (sys s)).
Proof.
  split; [reflexivity|]. split; [reflexivity|].
  apply (stat_reports_window_length (list event) (scripted all_zero)
           (example_state table_3) 1 1 "disk.img" 3 blank_stat);
    reflexivity.
Defined.

(** C1.  The status queries overwrite [st_size] also when the trigger
    does not match.  Descriptor 5 is not in the table and [other.img] is
    not the target path; the real queries report a file of 77595136
    bytes, and [fstat], [fstat64], [__fxstat64], [__xstat] and
    [__xstat64] hand back 33554944, the length of the window. *)
Theorem untracked_stat_size_overwritten :
  let s := example_state table_3 in
  tracked s 5 = false /\
  is_target s "other.img" = false /\
  fst (p_fstat (scripted all_zero) 5 blank_stat (sys s))
  = (0, example_stat) /\
  st_size example_stat = 77595136 /\
  value (fstat (scripted all_zero) 5 blank_stat s)
  = Some (0, set_st_size 33554944 example_stat) /\
  value (fstat64 (scripted all_zero) 5 blank_stat s)
  = Some (0, set_st_size 33554944 example_stat) /\
  value (__fxstat64 (scripted all_zero) 1 5 blank_stat s)
  = Some (0, set_st_size 33554944 example_stat) /\
  value (__xstat (scripted all_zero) 1 "other.img" blank_stat s)
  = Some (0, set_st_size 33554944 example_stat) /\
  value (__xstat64 (scripted all_zero) 1 "other.img" blank_stat s)
  = Some (0, set_st_size 33554944 example_stat).
Proof.
  repeat split; reflexivity.
Qed.

(** ** Open *)

(** C2.  An open of the target path stores whatever the real open
    returned in the table, the error return included.  With an empty
    table and a real open that fails with -1, each of [open], [open64]
    and [__open64_2] returns -1 and leaves -1 in the first slot, so that
    -1 counts as a tracked descriptor afterwards. *)
Theorem failed_open_is_registered :
  let s := example_state (repeat 0 MAX_FD) in
  is_target s "disk.img" = true /\
  fst (p_open (scripted all_fail) "disk.img" 0 0 (sys s)) = -1 /\
  tracked s (-1) = false /\
  (exists s', open (scripted all_fail) "disk.img" 0 0 s = Ret (-1) s' /\
              target_fd s' = -1 :: repeat 0 15 /\
              tracked s' (-1) = true) /\
  (exists s', open64 (scripted all_fail) "disk.img" 0 0 s = Ret (-1) s' /\
              target_fd s' = -1 :: repeat 0 15 /\
              tracked s' (-1) = true) /\
  (exists s', __open64_2 (scripted all_fail) "disk.img" 0 s = Ret (-1) s' /\
              target_fd s' = -1 :: repeat 0 15 /\
              tracked s' (-1) = true).
Proof.
  repeat split; try reflexivity; eexists; repeat split; reflexivity.
Qed.

(** The general fact behind C2: whenever the table has a free slot, the
    value returned by the real open of the target path is in the table
    afterwards, whether it is a descriptor or an error return. *)
Lemma open_target_registers_result :
  forall (W : Type) (real : real_ops W) (s : state W) path flags m,
    is_target s path = true ->
    has_free_slot (target_fd s) ->
    exists s',
      open real path flags m s
      = Ret (fst (p_open real path flags (creation_mode flags m) (sys s))) s'
      /\ tracked s'
           (fst (p_open real path flags (creation_mode flags m) (sys s)))
         = true.
Proof.
  intros W real s path flags m Hn Hfree.
  set (R := p_open real path flags (creation_mode flags m) (sys s)).
  destruct (add_fd_loop_free (fst R) _ Hfree) as [t Ht].
  destruct (open_target_stores real path flags m s t Hn Ht)
    as (s' & Hrun & _ & Hfd & _).
  exists s'. split; [exact Hrun|].
  unfold tracked. rewrite Hfd. simpl.
  apply check_fd_loop_In. now apply (add_fd_loop_stored _ _ _ Ht).
Qed.

(** C8.  With sixteen descriptors in the table, an open of the target
    path through [open], [open64] or [__open64_2] ends in [exit(1)]; no
    descriptor is returned. *)
Theorem open_on_full_table_exits :
  forall (W : Type) (real : real_ops W) (s : state W)
         (path : string) (flags m : Z),
    is_target s path = true ->
    table_full (target_fd s) ->
    exits (open real path flags m s) 1 /\
    exits (open64 real path flags m s) 1 /\
    exits (__open64_2 real path flags s) 1.
Proof.
  intros W real s path flags m Hn [_ Hfull].
  repeat split.
  - now apply open_target_full.
  - now apply open64_target_full.
  - now apply open64_2_target_full.
Qed.

Lemma open_on_full_table_exits_witness :
  let s := example_state table_16 in
  is_target s "disk.img" = true /\
  table_full (target_fd s) /\
  exits (open (scripted (always 19)) "disk.img" 2 0 s) 1 /\
  exits (open64 (scripted (always 19)) "disk.img" 2 0 s) 1 /\
  exits (__open64_2 (scripted (always 19)) "disk.img" 2 s) 1.
Proof.
  assert (Hfull : table_full table_16).
  { split; [reflexivity|].
    unfold table_16. repeat constructor; discriminate. }
  split; [reflexivity|]. split; [exact Hfull|].
  apply (open_on_full_table_exits (list event) (scripted (always 19))
           (example_state table_16) "disk.img" 2 0);
    [reflexivity | exact Hfull].
Defined.

(** ** Seek *)

(** C3.  When the real seek does not answer the requested absolute
    position, the wrapper sets [errno] to [EINVAL] and the result to -1,
    and then subtracts [segment_offset] from it like from a position.
    On the tracked descriptor 3, with a real seek that fails with -1,
    [lseek] and [lseek64] to relative offset 0 ask the real seek for
    44040192 and return -44040193. *)
Theorem failed_seek_result_is_shifted :
  let s := example_state table_3 in
  tracked s 3 = true /\
  fst (p_lseek (scripted all_fail) 3 44040192 SEEK_SET (sys s)) = -1 /\
  (exists s', lseek (scripted all_fail) 3 0 SEEK_SET s
              = Ret (-44040193) s' /\
              errno (sys s') = EINVAL /\
              world (sys s') = [EvLseek 3 44040192 SEEK_SET]) /\
  (exists s', lseek64 (scripted all_fail) 3 0 SEEK_SET s
              = Ret (-44040193) s' /\
              errno (sys s') = EINVAL /\
              world (sys s') = [EvLseek64 3 44040192 SEEK_SET]).
Proof.
  repeat split; try reflexivity; eexists; repeat split; reflexivity.
Qed.

(** C5.  A seek past the window on a tracked descriptor returns the
    number [EINVAL] as the function result.  On the tracked descriptor
    3, [lseek] and [lseek64] to relative offset 33554945 return 22, make
    no real call and leave [errno] as it was. *)
Theorem seek_past_window_returns_22 :
  let s := example_state table_3 in
  tracked s 3 = true /\
  segment_len s < 33554945 /\
  (exists s', lseek (scripted all_zero) 3 33554945 SEEK_SET s = Ret 22 s' /\
              errno (sys s') = errno (sys s) /\
              world (sys s') = []) /\
  (exists s', lseek64 (scripted all_zero) 3 33554945 SEEK_SET s
              = Ret 22 s' /\
              errno (sys s') = errno (sys s) /\
              world (sys s') = []).
Proof.
  repeat split; try reflexivity; eexists; repeat split; reflexivity.
Qed.

(** ** Coordinate translation *)

Lemma in_window_fits : forall (W : Type) (s : state W) o,
  window_fits s -> 0 <= o <= segment_len s ->
  in_off64 o /\ in_off64 (o + segment_offset s).
Proof.
  intros W s o (HB & HL & Hend) Ho.
  unfold in_off64, INT64_MIN, INT64_MAX in *. lia.
Qed.

Lemma lseek_reaches : forall (W : Type) (real : real_ops W) (s : state W) fd o,
  tracked s fd = true -> o <= segment_len s -> in_off64 o ->
  in_off64 (o + segment_offset s) ->
  reaches (lseek real fd o SEEK_SET s) s
          (snd (p_lseek real fd (o + segment_offset s) SEEK_SET (sys s))).
Proof.
  intros W real s fd o Ht Ho Hin Hr. unfold reaches.
  destruct (Z.eq_dec
              (fst (p_lseek real fd (o + segment_offset s) SEEK_SET (sys s)))
              (o + segment_offset s)) as [E|E].
  - destruct (lseek_tracked_match real fd o s Ht Ho Hin Hr E)
      as (s' & Hrun & _ & Hfd & _ & _ & _ & Hsys).
    exists o, s'. simpl in Hsys, Hfd. rewrite Hsys, Hfd. repeat split; auto.
  - destruct (lseek_tracked_mismatch real fd o s Ht Ho Hr E)
      as (s' & Hrun & _ & Hfd & _ & _ & _ & Hsys).
    eexists; exists s'. simpl in Hsys, Hfd. rewrite Hsys, Hfd.
    repeat split; eauto.
Qed.

Lemma lseek64_reaches : forall (W : Type) (real : real_ops W) (s : state W) fd o,
  tracked s fd = true -> o <= segment_len s -> in_off64 o ->
  in_off64 (o + segment_offset s) ->
  reaches (lseek64 real fd o SEEK_SET s) s
          (snd (p_lseek64 real fd (o + segment_offset s) SEEK_SET (sys s))).
Proof.
  intros W real s fd o Ht Ho Hin Hr. unfold reaches.
  destruct (Z.eq_dec
              (fst (p_lseek64 real fd (o + segment_offset s) SEEK_SET (sys s)))
              (o + segment_offset s)) as [E|E].
  - destruct (lseek64_tracked_match real fd o s Ht Ho Hin Hr E)
      as (s' & Hrun & _ & Hfd & _ & _ & _ & Hsys).
    exists o, s'. simpl in Hsys, Hfd. rewrite Hsys, Hfd. repeat split; auto.
  - destruct (lseek64_tracked_mismatch real fd o s Ht Ho Hr E)
      as (s' & Hrun & _ & Hfd & _ & _ & _ & Hsys).
    eexists; exists s'. simpl in Hsys, Hfd. rewrite Hsys, Hfd.
    repeat split; eauto.
Qed.

(** C6, as stated, fails.  [FILE=disk.img,9223372036854775807,10]
    configures a window whose base is [INT64_MAX]; on the tracked
    descriptor 3 the offset 5 lies inside the window, and the real write
    is called at the wrapped offset -9223372036854775804 instead of
    [5 + segment_offset].  (Past the window, at offset 11, [pread64]
    makes no real call and hands back the number 28 with the buffer and
    [errno] as they were.) *)
Lemma offset_wraps_at_end_of_off64 :
  let s := edge_state in
  let real := scripted (always 4096) in
  init (Some "disk.img,9223372036854775807,10") true
       (initial_state (mkHost 0 (@nil event)))
  = Ret tt (set_target_fd (repeat 0 MAX_FD) s) /\
  tracked s 3 = true /\
  0 <= 5 <= segment_len s /\
  5 + segment_offset s = 9223372036854775812 /\
  (exists s', pwrite64 real 3 [] 4096 5 s = Ret 4096 s' /\
              world (sys s') = [EvPwrite64 3 4096 (-9223372036854775804)]) /\
  (exists s', pread64 real 3 [7] 4096 11 s = Ret (28, [7]) s' /\
              sys s' = sys s).
Proof.
  repeat split; try reflexivity; try discriminate;
    eexists; split; reflexivity.
Qed.

(** C6, amended.  On a tracked descriptor: for a window whose base and
    length are [off64_t] values with [segment_offset + segment_len] not
    above [INT64_MAX], a relative offset [o] with
    [0 <= o <= segment_len] makes each offset-bearing wrapper ([lseek]
    and [lseek64] with [SEEK_SET], [pread64], [pwrite64], [fallocate])
    call its real operation at exactly [o + segment_offset]; and for
    every window, an offset [o > segment_len] never reaches the real
    operation: each wrapper returns to the caller without a real call. *)
Theorem in_window_offset_translation :
  forall (W : Type) (real : real_ops W) (s : state W)
         (fd o mode len count : Z) (buf : bytes),
    tracked s fd = true ->
    (window_fits s ->
     0 <= o <= segment_len s ->
     reaches (lseek real fd o SEEK_SET s) s
       (snd (p_lseek real fd (o + segment_offset s) SEEK_SET (sys s))) /\
     reaches (lseek64 real fd o SEEK_SET s) s
       (snd (p_lseek64 real fd (o + segment_offset s) SEEK_SET (sys s))) /\
     delegates (pread64 real fd buf count o s) s
       (p_pread64 real fd buf count (o + segment_offset s) (sys s)) /\
     delegates (pwrite64 real fd buf count o s) s
       (p_pwrite64 real fd buf count (o + segment_offset s) (sys s)) /\
     delegates (fallocate real fd mode o len s) s
       (p_fallocate real fd mode (o + segment_offset s) len (sys s))) /\
    (segment_len s < o ->
     stops (lseek real fd o SEEK_SET s) s /\
     stops (lseek64 real fd o SEEK_SET s) s /\
     stops (pread64 real fd buf count o s) s /\
     stops (pwrite64 real fd buf count o s) s /\
     stops (fallocate real fd mode o len s) s).
Proof.
  intros W real s fd o mode len count buf Ht. split.
  - intros Hwin Ho. destruct (in_window_fits W s o Hwin Ho) as [Hin Hr].
    destruct Ho as [_ Ho].
    repeat split.
    + now apply lseek_reaches.
    + now apply lseek64_reaches.
    + now apply pread64_tracked_in.
    + now apply pwrite64_tracked_in.
    + now apply fallocate_tracked_in.
  - intro Ho. unfold stops. repeat apply conj.
    + destruct (lseek_tracked_out real fd o s Ht Ho) as (s' & Hrun & Hc).
      eauto.
    + destruct (lseek64_tracked_out real fd o s Ht Ho) as (s' & Hrun & Hc).
      eauto.
    + destruct (pread64_tracked_out real fd buf count o s Ht Ho)
        as (s' & Hrun & Hc).
      eauto.
    + destruct (pwrite64_tracked_out real fd buf count o s Ht Ho)
        as (s' & Hrun & Hc).
      eauto.
    + destruct (fallocate_tracked_out real fd mode o len s Ht Ho)
        as (s' & Hrun & Hc).
      eauto.
Qed.

Lemma in_window_offset_translation_witness :
  let s := example_state table_3 in
  let real := scripted (always 4096) in
  tracked s 3 = true /\
  window_fits s /\
  0 <= 33554944 <= segment_len s /\
  segment_len s < 33554945 /\
  delegates (pwrite64 real 3 [] 4096 33554944 s) s
            (p_pwrite64 real 3 [] 4096 77595136 (sys s)) /\
  stops (pwrite64 real 3 [] 4096 33554945 s) s /\
  stops (pwrite64 real 3 [] 4096 5 (set_segment_len 4 edge_state))
        (set_segment_len 4 edge_state).
Proof.
  assert (Hwin : window_fits (example_state table_3)).
  { unfold window_fits, in_off64, INT64_MIN, INT64_MAX. simpl. lia. }
  assert (Hin : 0 <= 33554944 <= segment_len (example_state table_3)).
  { simpl. lia. }
  assert (Hout : segment_len (example_state table_3) < 33554945).
  { simpl. lia. }
  assert (Hedge : segment_len (set_segment_len 4 edge_state) < 5).
  { simpl. lia. }
  split; [reflexivity|]. split; [exact Hwin|].
  split; [exact Hin|]. split; [exact Hout|]. split; [|split].
  - apply (proj1 (in_window_offset_translation (list event)
                    (scripted (always 4096)) (example_state table_3)
                    3 33554944 0 0 4096 [] eq_refl) Hwin Hin).
  - apply (proj2 (in_window_offset_translation (list event)
                    (scripted (always 4096)) (example_state table_3)
                    3 33554945 0 0 4096 [] eq_refl) Hout).
  - apply (proj2 (in_window_offset_translation (list event)
                    (scripted (always 4096)) (set_segment_len 4 edge_state)
                    3 5 0 0 4096 [] eq_refl) Hedge).
Defined.



(** ** Descriptor 0 *)

(** C10.  A free slot holds the value 0, so whenever the table has a
    free slot [check_fd(0)] is true, and the offset-bearing wrappers
    treat descriptor 0 as tracked: an in-window offset [o] is sent to
    the real operation as [o + segment_offset]. *)
Theorem descriptor_zero_counts_as_tracked :
  forall (W : Type) (real : real_ops W) (s : state W)
         (o mode len count : Z) (buf : bytes),
    has_free_slot (target_fd s) ->
    o <= segment_len s ->
    in_off64 o ->
    in_off64 (o + segment_offset s) ->
    tracked s 0 = true /\
    reaches (lseek real 0 o SEEK_SET s) s
      (snd (p_lseek real 0 (o + segment_offset s) SEEK_SET (sys s))) /\
    reaches (lseek64 real 0 o SEEK_SET s) s
      (snd (p_lseek64 real 0 (o + segment_offset s) SEEK_SET (sys s))) /\
    delegates (pread64 real 0 buf count o s) s
      (p_pread64 real 0 buf count (o + segment_offset s) (sys s)) /\
    delegates (pwrite64 real 0 buf count o s) s
      (p_pwrite64 real 0 buf count (o + segment_offset s) (sys s)) /\
    delegates (fallocate real 0 mode o len s) s
      (p_fallocate real 0 mode (o + segment_offset s) len (sys s)).
Proof.
  intros W real s o mode len count buf Hfree Ho Hin Hr.
  assert (Ht : tracked s 0 = true).
  { unfold tracked. now apply check_fd_loop_In. }
  repeat split.
  - exact Ht.
  - now apply lseek_reaches.
  - now apply lseek64_reaches.
  - now apply pread64_tracked_in.
  - now apply pwrite64_tracked_in.
  - now apply fallocate_tracked_in.
Qed.

Lemma descriptor_zero_counts_as_tracked_witness :
  let s := example_state (repeat 0 MAX_FD) in
  let real := scripted (always 512) in
  has_free_slot (target_fd s) /\
  512 <= segment_len s /\
  in_off64 512 /\
  in_off64 (512 + segment_offset s) /\
  tracked s 0 = true /\
  delegates (pread64 real 0 [] 512 512 s) s
            (p_pread64 real 0 [] 512 44040704 (sys s)).
Proof.
  assert (Hfree : has_free_slot (target_fd (example_state (repeat 0 MAX_FD)))).
  { left. reflexivity. }
  assert (Ho : 512 <= segment_len (example_state (repeat 0 MAX_FD))).
  { simpl. lia. }
  assert (Hin : in_off64 512).
  { unfold in_off64, INT64_MIN, INT64_MAX. lia. }
  assert (Hr : in_off64 (512 + segment_offset
                                 (example_state (repeat 0 MAX_FD)))).
  { unfold in_off64, INT64_MIN, INT64_MAX. simpl. lia. }
  split; [exact Hfree|]. split; [exact Ho|]. split; [exact Hin|].
  split; [exact Hr|].
  destruct (descriptor_zero_counts_as_tracked (list event)
              (scripted (always 512)) (example_state (repeat 0 MAX_FD))
              512 0 0 512 [] Hfree Ho Hin Hr)
    as (Ht & _ & _ & Hread & _ & _).
  split; [exact Ht | exact Hread].
Defined.

(** The table is not full exactly when it has a free slot: [add_fd]
    reports "full" if and only if no slot holds 0. *)
Lemma add_fd_full_iff_no_free_slot : forall fd slots,
  add_fd_loop fd slots = None <-> ~ has_free_slot slots.
Proof.
  intros fd slots. rewrite add_fd_loop_full, Forall_forall.
  unfold has_free_slot. split.
  - intros H Hin. now apply (H 0 Hin).
  - intros H x Hin Hx. subst x. contradiction.
Qed.

(** ** Window configuration *)

(** C4, as stated, fails: the fields [abc] and [xyz] are not numeric,
    and [init] returns with offset 0 and length 0 instead of
    terminating the process. *)
Lemma non_numeric_fields_do_not_stop_init :
  let FILE := "disk.img,abc,xyz" in
  let s := initial_state (mkHost 0 (@nil event)) in
  offset_field FILE = Some "abc" /\
  length_field FILE = Some "xyz" /\
  missing_or_not_numeric (offset_field FILE) /\
  missing_or_not_numeric (length_field FILE) /\
  init (Some FILE) true s
  = Ret tt (mkState (Some "disk.img") (repeat 0 MAX_FD) 0 0 None 2 []
                    (mkHost 0 [])) /\
  ~ exits (init (Some FILE) true s) 1.
Proof.
  repeat split; try reflexivity.
  intros [s' H]. discriminate H.
Qed.

(** C4, amended.  [init] terminates the process with [exit(1)] when
    [FILE] is not set and when its offset field or its length field is
    missing.  A field that is present is never rejected for its text:
    with both fields present (and the log file, if one is asked for,
    opened) [init] returns, and the window is what [strtoull] reads from
    the two fields. *)
Theorem init_fatal_only_when_absent_or_missing :
  forall (W : Type) (s : state W) (env : option string) (fopen_ok : bool),
    ((env = None \/
      exists a, env = Some a /\
                (offset_field a = None \/ length_field a = None)) ->
     exits (init env fopen_ok s) 1) /\
    (forall a p1 p2,
       env = Some a -> offset_field a = Some p1 ->
       length_field a = Some p2 ->
       exists s',
         init env true s = Ret tt s' /\
         segment_offset s' = wrap64 (strtoull p1) /\
         segment_len s' = wrap64 (strtoull p2)).
Proof.
  intros W s env fopen_ok. split.
  - intros [Habs | (a & Henv & [Hoff | Hlen])]; subst env.
    + apply init_absent.
    + now apply init_offset_missing.
    + now apply init_length_missing.
  - intros a p1 p2 Henv H1 H2. subst env.
    destruct (init_present a p1 p2 s H1 H2)
      as (s' & Hrun & _ & _ & Hoff & Hlen & _).
    exists s'. auto.
Qed.

Lemma init_fatal_only_when_absent_or_missing_witness :
  let s := initial_state (mkHost 0 (@nil event)) in
  length_field "disk.img,44040192" = None /\
  exits (init (Some "disk.img,44040192") true s) 1 /\
  exits (init None true s) 1 /\
  exists s',
    init (Some "disk.img,12ab,0x10") true s = Ret tt s' /\
    segment_offset s' = wrap64 (strtoull "12ab") /\
    segment_len s' = wrap64 (strtoull "0x10").
Proof.
  split; [reflexivity|]. split; [|split].
  - apply (proj1 (init_fatal_only_when_absent_or_missing (list event)
                    (initial_state (mkHost 0 [])) (Some "disk.img,44040192")
                    true)).
    right. exists "disk.img,44040192". split; [reflexivity|].
    right. reflexivity.
  - apply (proj1 (init_fatal_only_when_absent_or_missing (list event)
                    (initial_state (mkHost 0 [])) None true)).
    left. reflexivity.
  - apply (proj2 (init_fatal_only_when_absent_or_missing (list event)
                    (initial_state (mkHost 0 [])) (Some "disk.img,12ab,0x10")
                    true) "disk.img,12ab,0x10" "12ab" "0x10");
      reflexivity.
Defined.

(** * Further properties *)

(** ** Calls that are not redirected *)

(** X1.  On a descriptor that is not in the table, [lseek], [lseek64],
    [fallocate], [pread64] and [pwrite64] hand their arguments to the
    real operation as they are, for any offset and any reference point,
    and return its result; the table and the window are untouched. *)
Theorem untracked_descriptor_passes_through :
  forall (W : Type) (real : real_ops W) (s : state W)
         (fd o whence mode len count : Z) (buf : bytes),
    tracked s fd = false ->
    delegates (lseek real fd o whence s) s
              (p_lseek real fd o whence (sys s)) /\
    delegates (lseek64 real fd o whence s) s
              (p_lseek64 real fd o whence (sys s)) /\
    delegates (fallocate real fd mode o len s) s
              (p_fallocate real fd mode o len (sys s)) /\
    delegates (pread64 real fd buf count o s) s
              (p_pread64 real fd buf count o (sys s)) /\
    delegates (pwrite64 real fd buf count o s) s
              (p_pwrite64 real fd buf count o (sys s)).
Proof.
  intros W real s fd o whence mode len count buf Ht.
  repeat split.
  - now apply lseek_untracked.
  - now apply lseek64_untracked.
  - now apply fallocate_untracked.
  - now apply pread64_untracked.
  - now apply pwrite64_untracked.
Qed.

Lemma untracked_descriptor_passes_through_witness :
  let s := example_state table_3 in
  let real := scripted (always 7) in
  tracked s 5 = false /\
  delegates (lseek real 5 99999999999 2 s) s
            (p_lseek real 5 99999999999 2 (sys s)) /\
  delegates (pwrite64 real 5 [] 7 99999999999 s) s
            (p_pwrite64 real 5 [] 7 99999999999 (sys s)).
Proof.
  split; [reflexivity|].
  destruct (untracked_descriptor_passes_through (list event)
              (scripted (always 7)) (example_state table_3)
              5 99999999999 2 0 0 7 [] eq_refl)
    as (Hseek & _ & _ & _ & Hwrite).
  split; [exact Hseek | exact Hwrite].
Defined.

(** X2.  An open of a path other than the target path, through [open],
    [open64] or [__open64_2], is the real open with the caller's flags
    and mode; its result is returned and the table is untouched. *)
Theorem other_path_open_passes_through :
  forall (W : Type) (real : real_ops W) (s : state W)
         (path : string) (flags m : Z),
    is_target s path = false ->
    delegates (open real path flags m s) s
              (p_open real path flags (creation_mode flags m) (sys s)) /\
    delegates (open64 real path flags m s) s
              (p_open64 real path flags (creation_mode flags m) (sys s)) /\
    delegates (__open64_2 real path flags s) s
              (p___open64_2 real path flags (sys s)).
Proof.
  intros W real s path flags m Hn. repeat split.
  - now apply open_other.
  - now apply open64_other.
  - now apply open64_2_other.
Qed.

Lemma other_path_open_passes_through_witness :
  let s := example_state table_16 in
  let real := scripted (always 19) in
  is_target s "/etc/mtab" = false /\
  delegates (open real "/etc/mtab" 66 420 s) s
            (p_open real "/etc/mtab" 66 420 (sys s)).
Proof.
  split; [reflexivity|].
  apply (other_path_open_passes_through (list event) (scripted (always 19))
           (example_state table_16) "/etc/mtab" 66 420 eq_refl).
Defined.

Lemma after_dprint_quiet : forall (W : Type) fmt args (s : state W),
  debug_level s < LOG_DBG ->
  after_dprint LOG_DBG false fmt args s = s.
Proof.
  intros W fmt args s Hlvl. unfold after_dprint, dprint, LOG_DBG in *.
  replace (debug_level s <? 4) with true by (symmetry; apply Z.ltb_lt; lia).
  replace (4 >? debug_level s) with true
    by (symmetry; apply Z.gtb_lt; lia).
  rewrite andb_false_r. reflexivity.
Qed.

(** X3.  Unless the debug level is [LOG_DBG], a call that is not
    redirected leaves no trace at all: on a descriptor outside the table
    and on a path other than the target, each wrapper returns the result
    of the real call and leaves the process exactly as that call left
    it, with nothing printed or logged. *)
Theorem quiet_pass_through :
  forall (W : Type) (real : real_ops W) (s : state W)
         (fd o whence mode len count flags m : Z) (buf : bytes)
         (path : string),
    debug_level s < LOG_DBG ->
    tracked s fd = false ->
    is_target s path = false ->
    transparent (lseek real fd o whence s) s
                (p_lseek real fd o whence (sys s)) /\
    transparent (lseek64 real fd o whence s) s
                (p_lseek64 real fd o whence (sys s)) /\
    transparent (fallocate real fd mode o len s) s
                (p_fallocate real fd mode o len (sys s)) /\
    transparent (pread64 real fd buf count o s) s
                (p_pread64 real fd buf count o (sys s)) /\
    transparent (pwrite64 real fd buf count o s) s
                (p_pwrite64 real fd buf count o (sys s)) /\
    transparent (close real fd s) s (p_close real fd (sys s)) /\
    transparent (open real path flags m s) s
                (p_open real path flags (creation_mode flags m) (sys s)) /\
    transparent (open64 real path flags m s) s
                (p_open64 real path flags (creation_mode flags m) (sys s)) /\
    transparent (__open64_2 real path flags s) s
                (p___open64_2 real path flags (sys s)).
Proof.
  intros W real s fd o whence mode len count flags m buf path Hlvl Ht Hn.
  unfold transparent, tracked, is_target in *.
  assert (Hq : forall fmt args (h : host W),
             after_dprint LOG_DBG false fmt args (set_sys h s)
             = set_sys h s).
  { intros. apply after_dprint_quiet. exact Hlvl. }
  repeat split;
    unfold lseek, lseek64, fallocate, pread64, pwrite64, close, open,
      open64, __open64_2;
    repeat (progress (run; rewrite ?Ht, ?Hn, ?Hq));
    try reflexivity.
  destruct (p_pread64 real fd buf count o (sys s)) as [[r b] h].
  repeat (progress (run; rewrite ?Ht, ?Hn, ?Hq)). reflexivity.
Qed.

Lemma quiet_pass_through_witness :
  let s := example_state table_3 in
  let real := scripted (always 7) in
  debug_level s < LOG_DBG /\
  tracked s 5 = false /\
  is_target s "/etc/mtab" = false /\
  transparent (pread64 real 5 [] 7 0 s) s (p_pread64 real 5 [] 7 0 (sys s)) /\
  transparent (close real 5 s) s (p_close real 5 (sys s)).
Proof.
  assert (Hlvl : debug_level (example_state table_3) < LOG_DBG).
  { unfold LOG_DBG. simpl. lia. }
  split; [exact Hlvl|]. split; [reflexivity|]. split; [reflexivity|].
  destruct (quiet_pass_through (list event) (scripted (always 7))
              (example_state table_3) 5 0 0 0 0 7 0 0 [] "/etc/mtab"
              Hlvl eq_refl eq_refl)
    as (_ & _ & _ & Hread & _ & Hclose & _).
  split; [exact Hread | exact Hclose].
Defined.

(** ** The descriptor table as a container *)

Lemma remove_fd_loop_others : forall fd slots t y,
  remove_fd_loop fd slots = Some t -> y <> fd -> y <> 0 ->
  (In y t <-> In y slots).
Proof.
  intros fd slots. induction slots as [|x rest IH]; simpl; intros t y H Hy H0.
  - discriminate.
  - destruct (fd =? x) eqn:E.
    + apply Z.eqb_eq in E. subst x. inversion H; subst. simpl.
      split; intros [Hin|Hin]; auto; congruence.
    + destruct (remove_fd_loop fd rest) as [t'|]; [|discriminate].
      inversion H; subst. simpl. rewrite (IH t' y eq_refl Hy H0).
      reflexivity.
Qed.

Lemma add_then_remove : forall fd slots t,
  add_fd_loop fd slots = Some t -> fd <> 0 -> ~ In fd slots ->
  remove_fd_loop fd t = Some slots.
Proof.
  intros fd slots. induction slots as [|x rest IH]; simpl; intros t H Hfd Hn.
  - discriminate.
  - destruct (x =? 0) eqn:E.
    + apply Z.eqb_eq in E. subst x. inversion H; subst. simpl.
      rewrite Z.eqb_refl. reflexivity.
    + destruct (add_fd_loop fd rest) as [t'|] eqn:Ht'; [|discriminate].
      inversion H; subst. simpl.
      assert (Hx : (fd =? x) = false).
      { apply Z.eqb_neq. intro Heq. apply Hn. left. congruence. }
      rewrite Hx. rewrite (IH t' eq_refl Hfd); [reflexivity|].
      intro Hin. apply Hn. now right.
Qed.

Lemma add_zero_same : forall slots,
  has_free_slot slots -> add_fd_loop 0 slots = Some slots.
Proof.
  unfold has_free_slot. induction slots as [|x rest IH]; simpl; intro Hin.
  - contradiction.
  - destruct (x =? 0) eqn:E.
    + apply Z.eqb_eq in E. now subst x.
    + apply Z.eqb_neq in E. destruct Hin as [Hin|Hin]; [congruence|].
      now rewrite (IH Hin).
Qed.

Lemma remove_zero_same : forall slots,
  has_free_slot slots -> remove_fd_loop 0 slots = Some slots.
Proof.
  unfold has_free_slot. induction slots as [|x rest IH]; intro Hin.
  - contradiction.
  - cbn [remove_fd_loop]. destruct (0 =? x) eqn:E.
    + apply Z.eqb_eq in E. now subst x.
    + apply Z.eqb_neq in E. destruct Hin as [Hin|Hin]; [congruence|].
      now rewrite (IH Hin).
Qed.

Lemma set_target_fd_same : forall (W : Type) (s : state W),
  set_target_fd (target_fd s) s = s.
Proof. intros W s. destruct s. reflexivity. Qed.

Lemma add_uses_one_slot : forall fd slots t,
  add_fd_loop fd slots = Some t -> fd <> 0 ->
  free_slots slots = S (free_slots t).
Proof.
  unfold free_slots.
  intros fd slots. induction slots as [|x rest IH]; simpl; intros t H Hfd.
  - discriminate.
  - destruct (x =? 0) eqn:E.
    + apply Z.eqb_eq in E. subst x. inversion H; subst. simpl.
      destruct (Z.eq_dec 0 0); [|congruence].
      destruct (Z.eq_dec fd 0); [congruence | reflexivity].
    + apply Z.eqb_neq in E.
      destruct (add_fd_loop fd rest) as [t'|]; [|discriminate].
      inversion H; subst. simpl.
      destruct (Z.eq_dec x 0); [congruence|]. now apply IH.
Qed.

Lemma full_iff_no_free_slots : forall fd slots,
  add_fd_loop fd slots = None <-> free_slots slots = 0%nat.
Proof.
  intros fd slots. rewrite add_fd_full_iff_no_free_slot.
  unfold has_free_slot, free_slots. apply count_occ_not_In.
Qed.

Lemma add_all_capacity : forall fds slots,
  Forall (fun fd => fd <> 0) fds ->
  (add_all fds slots <> None <-> (List.length fds <= free_slots slots)%nat).
Proof.
  induction fds as [|fd rest IH]; simpl; intros slots Hnz.
  - split; [intros _; lia | discriminate].
  - inversion Hnz as [|? ? Hfd Hrest]; subst.
    destruct (add_fd_loop fd slots) as [t|] eqn:E.
    + rewrite (IH t Hrest). rewrite (add_uses_one_slot _ _ _ E Hfd). lia.
    + apply full_iff_no_free_slots in E. rewrite E.
      split; [congruence | lia].
Qed.

(** X4.  From the table [init] leaves behind, registering a list of
    non-zero descriptors one after the other succeeds if and only if
    there are at most [MAX_FD] = 16 of them. *)
Theorem table_holds_exactly_MAX_FD :
  forall fds : list Z,
    Forall (fun fd => fd <> 0) fds ->
    (add_all fds (repeat 0 MAX_FD) <> None <->
     (List.length fds <= MAX_FD)%nat).
Proof.
  intros fds Hnz. apply (add_all_capacity fds (repeat 0 MAX_FD) Hnz).
Qed.

Lemma table_holds_exactly_MAX_FD_witness :
  Forall (fun fd => fd <> 0) table_16 /\
  add_all table_16 (repeat 0 MAX_FD) <> None /\
  Forall (fun fd => fd <> 0) (19 :: table_16) /\
  ~ add_all (19 :: table_16) (repeat 0 MAX_FD) <> None.
Proof.
  assert (H16 : Forall (fun fd => fd <> 0) table_16).
  { unfold table_16. repeat constructor; discriminate. }
  assert (H17 : Forall (fun fd => fd <> 0) (19 :: table_16)).
  { constructor; [discriminate | exact H16]. }
  split; [exact H16|]. split; [|split; [exact H17|]].
  - apply (proj2 (table_holds_exactly_MAX_FD table_16 H16)).
    simpl. unfold MAX_FD. lia.
  - intro H.
    apply (proj1 (table_holds_exactly_MAX_FD (19 :: table_16) H17)) in H.
    simpl in H. unfold MAX_FD in H. lia.
Defined.

(** X5.  [add_fd] on a table with a free slot reports success, and the
    descriptor is found by [check_fd] afterwards; the non-zero
    descriptors that were in the table are still found, a non-zero
    descriptor takes up exactly one free slot, and nothing but the table
    changes. *)
Theorem add_fd_then_check_fd :
  forall (W : Type) (s : state W) (fd : Z),
    has_free_slot (target_fd s) ->
    exists s',
      add_fd fd s = Ret false s' /\
      tracked s' fd = true /\
      (forall y, y <> 0 -> tracked s y = true -> tracked s' y = true) /\
      (fd <> 0 ->
       free_slots (target_fd s) = S (free_slots (target_fd s'))) /\
      same_window s s' /\ sys s' = sys s /\ stdout s' = stdout s.
Proof.
  intros W s fd Hfree.
  destruct (add_fd_loop_free fd _ Hfree) as [t Ht].
  exists (set_target_fd t s). unfold add_fd, tracked. rewrite Ht. simpl.
  split; [reflexivity|]. split.
  { apply check_fd_loop_In. now apply (add_fd_loop_stored _ _ _ Ht). }
  split.
  { intros y Hy Hin. apply check_fd_loop_In. apply check_fd_loop_In in Hin.
    now apply (add_fd_loop_keeps _ _ _ _ Ht Hy Hin). }
  split.
  { intro Hfd. now apply (add_uses_one_slot fd). }
  unfold same_window. simpl. repeat split; reflexivity.
Qed.

Lemma add_fd_then_check_fd_witness :
  let s := example_state table_3 in
  has_free_slot (target_fd s) /\
  exists s', add_fd 4 s = Ret false s' /\ tracked s' 4 = true /\
             tracked s' 3 = true.
Proof.
  assert (Hfree : has_free_slot (target_fd (example_state table_3))).
  { right. left. reflexivity. }
  split; [exact Hfree|].
  destruct (add_fd_then_check_fd (list event) (example_state table_3) 4 Hfree)
    as (s' & Hrun & H4 & Hkeep & _).
  exists s'. split; [exact Hrun|]. split; [exact H4|].
  apply Hkeep; [discriminate | reflexivity].
Defined.

Lemma after_dprint_error : forall (W : Type) our fmt args (s : state W),
  LOG_ERR <= debug_level s ->
  after_dprint LOG_ERR our fmt args s = printed (mkLine fmt args) s.
Proof.
  intros W our fmt args s Hlvl. unfold after_dprint, dprint, printed.
  replace (LOG_ERR >? debug_level s) with false.
  - rewrite andb_false_r. reflexivity.
  - symmetry. destruct (Z.gtb_spec LOG_ERR (debug_level s)); [lia|].
    reflexivity.
Qed.

(** X6.  [remove_fd] on a descriptor that is not in the table is fatal.
    At any level from [LOG_ERR] up (the level is [LOG_ERR] when the
    library is loaded and [init] only raises it) it prints the line
    [%s(error line %d)] with [remove_fd] and 155, on standard output and
    in the log file when it is open, and ends in [exit(1)]; nothing else
    of the process changes, the table included. *)
Theorem remove_fd_absent_logs_and_exits :
  forall (W : Type) (s : state W) (fd : Z),
    tracked s fd = false ->
    LOG_ERR <= debug_level s ->
    remove_fd fd s
    = Exit 1 (printed (mkLine "%s(error line %d)"
                              [AStr "remove_fd"; AInt 155]) s).
Proof.
  intros W s fd Ht Hlvl. unfold remove_fd, tracked in *.
  rewrite remove_fd_loop_absent.
  - run. rewrite after_dprint_error by exact Hlvl. reflexivity.
  - intro Hin. apply check_fd_loop_In in Hin. congruence.
Qed.

Lemma remove_fd_absent_logs_and_exits_witness :
  let s := example_state table_3 in
  tracked s 5 = false /\
  LOG_ERR <= debug_level s /\
  remove_fd 5 s
  = Exit 1 (mkState (Some "disk.img") table_3 44040192 33554944 None 2
                    [mkLine "%s(error line %d)" [AStr "remove_fd"; AInt 155]]
                    (mkHost 0 [])).
Proof.
  assert (Hlvl : LOG_ERR <= debug_level (example_state table_3)).
  { unfold LOG_ERR. simpl. lia. }
  split; [reflexivity|]. split; [exact Hlvl|].
  apply (remove_fd_absent_logs_and_exits (list event)
           (example_state table_3) 5 eq_refl Hlvl).
Defined.

(** X7.  [close] never terminates the process: it removes a descriptor
    only after [check_fd] found it, so the fatal branch of [remove_fd]
    is out of reach.  Whatever the descriptor and whatever the real
    close answers, [close] returns that answer, and for a descriptor
    outside the table the table is untouched. *)
Theorem close_always_returns :
  forall (W : Type) (real : real_ops W) (s : state W) (fd : Z),
    exists s',
      close real fd s = Ret (fst (p_close real fd (sys s))) s' /\
      sys s' = snd (p_close real fd (sys s)) /\
      same_window s s' /\
      (tracked s fd = false -> target_fd s' = target_fd s).
Proof.
  intros W real s fd. destruct (tracked s fd) eqn:Ht.
  - destruct (close_tracked real fd s Ht)
      as (t & _ & s' & Hrun & Hn & _ & Ho & Hl & Hd & Hsys).
    exists s'. simpl in *. unfold same_window.
    repeat split; try assumption. discriminate.
  - destruct (close_untracked real fd s Ht)
      as (s' & Hrun & Hn & Hfd & Ho & Hl & Hd & Hsys).
    exists s'. simpl in *. unfold same_window.
    repeat split; intros; assumption.
Qed.

(** X8.  Closing a tracked non-zero descriptor that sits in one slot
    takes it out of the table even when the real close fails, and
    changes the status of no other non-zero descriptor. *)
Theorem close_untracks_descriptor :
  forall (W : Type) (real : real_ops W) (s : state W) (fd : Z),
    tracked s fd = true ->
    fd <> 0 ->
    count_occ Z.eq_dec (target_fd s) fd = 1%nat ->
    exists s',
      close real fd s = Ret (fst (p_close real fd (sys s))) s' /\
      tracked s' fd = false /\
      (forall y, y <> fd -> y <> 0 -> tracked s' y = tracked s y).
Proof.
  intros W real s fd Ht Hfd Hc.
  destruct (close_tracked real fd s Ht) as (t & Hrm & s' & Hrun & _ & Hfd' & _).
  simpl in Hfd'. exists s'. split; [exact Hrun|].
  unfold tracked. rewrite Hfd'. split.
  - destruct (check_fd_loop fd t) eqn:E; [|reflexivity].
    apply check_fd_loop_In in E.
    exfalso. now apply (remove_fd_loop_gone fd _ t Hfd Hc Hrm).
  - intros y Hy H0.
    pose proof (remove_fd_loop_others fd _ t y Hrm Hy H0) as Hiff.
    destruct (check_fd_loop y t) eqn:E1;
      destruct (check_fd_loop y (target_fd s)) eqn:E2; try reflexivity.
    + apply check_fd_loop_In in E1. apply Hiff in E1.
      apply check_fd_loop_In in E1. congruence.
    + apply check_fd_loop_In in E2. apply Hiff in E2.
      apply check_fd_loop_In in E2. congruence.
Qed.

Lemma close_untracks_descriptor_witness :
  let s := example_state table_16 in
  let real := scripted all_fail in
  tracked s 7 = true /\ 7 <> 0 /\
  count_occ Z.eq_dec (target_fd s) 7 = 1%nat /\
  exists s', close real 7 s = Ret (-1) s' /\ tracked s' 7 = false /\
             tracked s' 8 = true.
Proof.
  split; [reflexivity|]. split; [discriminate|]. split; [reflexivity|].
  destruct (close_untracks_descriptor (list event) (scripted all_fail)
              (example_state table_16) 7 eq_refl ltac:(discriminate) eq_refl)
    as (s' & Hrun & Hgone & Hothers).
  exists s'. split; [exact Hrun|]. split; [exact Hgone|].
  rewrite Hothers; [reflexivity | discriminate | discriminate].
Defined.

(** X9.  Open then close is a round trip on the table: when the real
    open of the target path returns a non-zero descriptor that is not in
    the table and a slot is free, the descriptor is tracked after the
    open, and closing it puts the table back exactly as it was before
    the open. *)
Theorem open_close_round_trip :
  forall (W : Type) (real : real_ops W) (s : state W)
         (path : string) (flags m : Z),
    let r := fst (p_open real path flags (creation_mode flags m) (sys s)) in
    is_target s path = true ->
    has_free_slot (target_fd s) ->
    r <> 0 ->
    tracked s r = false ->
    exists s1 s2,
      open real path flags m s = Ret r s1 /\
      tracked s1 r = true /\
      close real r s1 = Ret (fst (p_close real r (sys s1))) s2 /\
      target_fd s2 = target_fd s.
Proof.
  intros W real s path flags m r Hn Hfree Hr Ht.
  destruct (add_fd_loop_free r _ Hfree) as [t Hadd].
  destruct (open_target_stores real path flags m s t Hn Hadd)
    as (s1 & Hopen & _ & Hfd1 & _).
  simpl in Hfd1.
  assert (Ht1 : tracked s1 r = true).
  { unfold tracked. rewrite Hfd1. apply check_fd_loop_In.
    now apply (add_fd_loop_stored _ _ _ Hadd). }
  destruct (close_tracked real r s1 Ht1)
    as (t2 & Hrm & s2 & Hclose & _ & Hfd2 & _).
  simpl in Hfd2. exists s1, s2.
  split; [exact Hopen|]. split; [exact Ht1|]. split; [exact Hclose|].
  rewrite Hfd2. rewrite Hfd1 in Hrm.
  assert (Hnot : ~ In r (target_fd s)).
  { intro Hin. apply check_fd_loop_In in Hin. unfold tracked in Ht.
    congruence. }
  rewrite (add_then_remove r _ t Hadd Hr Hnot) in Hrm. congruence.
Qed.

Lemma open_close_round_trip_witness :
  let s := example_state table_3 in
  let real := scripted (always 4) in
  is_target s "disk.img" = true /\
  has_free_slot (target_fd s) /\
  4 <> 0 /\
  tracked s 4 = false /\
  exists s1 s2,
    open real "disk.img" 2 0 s = Ret 4 s1 /\
    tracked s1 4 = true /\
    close real 4 s1 = Ret (fst (p_close real 4 (sys s1))) s2 /\
    target_fd s2 = target_fd s.
Proof.
  assert (Hfree : has_free_slot (target_fd (example_state table_3))).
  { right. left. reflexivity. }
  split; [reflexivity|]. split; [exact Hfree|].
  split; [discriminate|]. split; [reflexivity|].
  apply (open_close_round_trip (list event) (scripted (always 4))
           (example_state table_3) "disk.img" 2 0 eq_refl Hfree
           ltac:(discriminate) eq_refl).
Defined.

(** X10.  Descriptor 0 cannot be stored: on a table with a free slot,
    [add_fd(0)] reports success and [remove_fd(0)] returns, and both
    leave the table, and the whole process state, exactly as it was. *)
Theorem descriptor_zero_is_never_stored :
  forall (W : Type) (s : state W),
    has_free_slot (target_fd s) ->
    add_fd 0 s = Ret false s /\ remove_fd 0 s = Ret tt s.
Proof.
  intros W s Hfree. unfold add_fd, remove_fd.
  rewrite (add_zero_same _ Hfree), (remove_zero_same _ Hfree).
  rewrite set_target_fd_same. split; reflexivity.
Qed.

Lemma descriptor_zero_is_never_stored_witness :
  let s := example_state table_3 in
  has_free_slot (target_fd s) /\
  add_fd 0 s = Ret false s /\ remove_fd 0 s = Ret tt s.
Proof.
  assert (Hfree : has_free_slot (target_fd (example_state table_3))).
  { right. left. reflexivity. }
  split; [exact Hfree|].
  apply (descriptor_zero_is_never_stored (list event)
           (example_state table_3) Hfree).
Defined.

(** ** Seek on a tracked descriptor *)

(** X11.  On a tracked descriptor a seek with any reference point other
    than [SEEK_SET] is fatal: [lseek] and [lseek64] end in [exit(1)]
    before the bounds test and before any real seek, whatever the
    offset. *)
Theorem tracked_seek_needs_SEEK_SET :
  forall (W : Type) (real : real_ops W) (s : state W) (fd o whence : Z),
    tracked s fd = true ->
    whence <> SEEK_SET ->
    dies (lseek real fd o whence s) s 1 /\
    dies (lseek64 real fd o whence s) s 1.
Proof.
  intros W real s fd o whence Ht Hw. unfold dies, tracked in *.
  apply Z.eqb_neq in Hw. split.
  - unfold lseek. run. rewrite Ht. run. rewrite Hw. run.
    eexists; split; [reflexivity|]. apply after_dprint_core.
  - unfold lseek64. run. rewrite Ht. run. rewrite Hw. run.
    eexists; split; [reflexivity|]. apply after_dprint_core.
Qed.

Lemma tracked_seek_needs_SEEK_SET_witness :
  let s := example_state table_3 in
  let real := scripted all_zero in
  tracked s 3 = true /\ 2 <> SEEK_SET /\
  dies (lseek real 3 0 2 s) s 1 /\ dies (lseek64 real 3 0 2 s) s 1.
Proof.
  split; [reflexivity|]. split; [discriminate|].
  apply (tracked_seek_needs_SEEK_SET (list event) (scripted all_zero)
           (example_state table_3) 3 0 2 eq_refl ltac:(discriminate)).
Defined.

(** X12.  A seek is a round trip through the window: on a tracked
    descriptor, for an offset [o] inside the window, when the real seek
    lands on the absolute position [o + segment_offset] it was asked
    for, [lseek] and [lseek64] return [o] itself, and the process is
    left as the real seek left it. *)
Theorem tracked_seek_returns_relative_offset :
  forall (W : Type) (real : real_ops W) (s : state W) (fd o : Z),
    tracked s fd = true ->
    o <= segment_len s ->
    in_off64 o ->
    in_off64 (o + segment_offset s) ->
    fst (p_lseek real fd (o + segment_offset s) SEEK_SET (sys s))
    = o + segment_offset s ->
    fst (p_lseek64 real fd (o + segment_offset s) SEEK_SET (sys s))
    = o + segment_offset s ->
    (exists s',
       lseek real fd o SEEK_SET s = Ret o s' /\
       same_core
         (set_sys
            (snd (p_lseek real fd (o + segment_offset s) SEEK_SET (sys s)))
            s) s') /\
    (exists s',
       lseek64 real fd o SEEK_SET s = Ret o s' /\
       same_core
         (set_sys
            (snd (p_lseek64 real fd (o + segment_offset s) SEEK_SET (sys s)))
            s) s').
Proof.
  intros W real s fd o Ht Ho Hin Hr H32 H64. split.
  - now apply lseek_tracked_match.
  - now apply lseek64_tracked_match.
Qed.

Lemma tracked_seek_returns_relative_offset_witness :
  let s := example_state table_3 in
  let real := scripted (always 44040704) in
  tracked s 3 = true /\
  512 <= segment_len s /\
  in_off64 512 /\
  in_off64 (512 + segment_offset s) /\
  (exists s', lseek real 3 512 SEEK_SET s = Ret 512 s' /\
              world (sys s') = [EvLseek 3 44040704 SEEK_SET]) /\
  (exists s', lseek64 real 3 512 SEEK_SET s = Ret 512 s' /\
              world (sys s') = [EvLseek64 3 44040704 SEEK_SET]).
Proof.
  assert (Ho : 512 <= segment_len (example_state table_3)).
  { simpl. lia. }
  assert (Hin : in_off64 512).
  { unfold in_off64, INT64_MIN, INT64_MAX. lia. }
  assert (Hr : in_off64 (512 + segment_offset (example_state table_3))).
  { unfold in_off64, INT64_MIN, INT64_MAX. simpl. lia. }
  split; [reflexivity|]. split; [exact Ho|]. split; [exact Hin|].
  split; [exact Hr|].
  destruct (tracked_seek_returns_relative_offset (list event)
              (scripted (always 44040704)) (example_state table_3) 3 512
              eq_refl Ho Hin Hr eq_refl eq_refl)
    as ((s1 & Hrun1 & c1) & (s2 & Hrun2 & c2)).
  split.
  - exists s1. split; [exact Hrun1|].
    destruct c1 as (_ & _ & _ & _ & _ & Hsys). rewrite Hsys. reflexivity.
  - exists s2. split; [exact Hrun2|].
    destruct c2 as (_ & _ & _ & _ & _ & Hsys). rewrite Hsys. reflexivity.
Defined.

(** ** What the wrappers never change *)

Section Invariant.

Context {W : Type} (real : real_ops W).
Variable R : state W -> state W -> Prop.
Hypothesis R_refl : forall s, R s s.
Hypothesis R_trans : forall s1 s2 s3, R s1 s2 -> R s2 s3 -> R s1 s3.
Hypothesis R_sys : forall h s, R s (set_sys h s).
Hypothesis R_log : forall level our fmt args s,
  R s (after_dprint level our fmt args s).

Lemma keeps_ret : forall A (a : A), keeps R (ret a).
Proof. intros A a s. apply R_refl. Qed.

Lemma keeps_exit : forall A c, keeps R (@exit W A c).
Proof. intros A c s. apply R_refl. Qed.

Lemma keeps_gets : forall A (f : state W -> A), keeps R (gets f).
Proof. intros A f s. apply R_refl. Qed.

Lemma keeps_bind : forall A B (m : M W A) (k : A -> M W B),
  keeps R m -> (forall a, keeps R (k a)) -> keeps R (bind m k).
Proof.
  intros A B m k Hm Hk s. unfold bind.
  specialize (Hm s). destruct (m s) as [a s'|c s']; simpl in *.
  - apply (R_trans _ s'); [exact Hm | apply Hk].
  - exact Hm.
Qed.

Lemma keeps_call : forall A (f : host W -> A * host W), keeps R (call f).
Proof.
  intros A f s. unfold call. destruct (f (sys s)) as [a h]. apply R_sys.
Qed.

Lemma keeps_dprint : forall level our fmt args,
  keeps R (dprint level our fmt args).
Proof. intros level our fmt args s. apply R_log. Qed.

Lemma keeps_set_errno : forall e, keeps R (@set_errno W e).
Proof. intros e s. apply R_sys. Qed.

(** Walks through the body of a wrapper, one statement at a time. *)
Ltac keep :=
  unfold check_fd, check_name;
  repeat first
    [ apply keeps_ret | apply keeps_exit | apply keeps_gets
    | apply keeps_call | apply keeps_dprint | apply keeps_set_errno
    | apply keeps_bind; [|intro]
    | match goal with
      | |- keeps _ (if ?c then _ else _) => destruct c
      | |- keeps _ (match ?x with inl _ => _ | inr _ => _ end) => destruct x
      | |- keeps _ (let (_, _) := ?x in _) => destruct x
      end ].

Lemma keeps_lseek : forall fd o whence, keeps R (lseek real fd o whence).
Proof. intros. unfold lseek. keep. Qed.

Lemma keeps_lseek64 : forall fd o whence, keeps R (lseek64 real fd o whence).
Proof. intros. unfold lseek64. keep. Qed.

Lemma keeps_xstat : forall x path buf, keeps R (__xstat real x path buf).
Proof. intros. unfold __xstat. keep. Qed.

Lemma keeps_xstat64 : forall x path buf, keeps R (__xstat64 real x path buf).
Proof. intros. unfold __xstat64. keep. Qed.

Lemma keeps_fstat : forall fd buf, keeps R (fstat real fd buf).
Proof. intros. unfold fstat. keep. Qed.

Lemma keeps_fstat64 : forall fd buf, keeps R (fstat64 real fd buf).
Proof. intros. unfold fstat64. keep. Qed.

Lemma keeps_fxstat64 : forall vers fd buf,
  keeps R (__fxstat64 real vers fd buf).
Proof. intros. unfold __fxstat64. keep. Qed.

Lemma keeps_fallocate : forall fd mode o len,
  keeps R (fallocate real fd mode o len).
Proof. intros. unfold fallocate. keep. Qed.

Lemma keeps_pread64 : forall fd buf count o,
  keeps R (pread64 real fd buf count o).
Proof. intros. unfold pread64. keep. Qed.

Lemma keeps_pwrite64 : forall fd buf count o,
  keeps R (pwrite64 real fd buf count o).
Proof. intros. unfold pwrite64. keep. Qed.

Hypothesis R_fd : forall t s, R s (set_target_fd t s).

Lemma keeps_add_fd : forall fd, keeps R (add_fd fd).
Proof.
  intros fd s. unfold add_fd.
  destruct (add_fd_loop fd (target_fd s)); simpl; [apply R_fd | apply R_refl].
Qed.

Lemma keeps_remove_fd : forall fd, keeps R (remove_fd fd).
Proof.
  intros fd s. unfold remove_fd.
  destruct (remove_fd_loop fd (target_fd s)); simpl; [apply R_fd|].
  run. simpl. apply R_log.
Qed.

Ltac keep' :=
  unfold check_fd, check_name;
  repeat first
    [ apply keeps_ret | apply keeps_exit | apply keeps_gets
    | apply keeps_call | apply keeps_dprint | apply keeps_add_fd
    | apply keeps_remove_fd
    | apply keeps_bind; [|intro]
    | match goal with
      | |- keeps _ (if ?c then _ else _) => destruct c
      end ].

Lemma keeps_open : forall path flags m, keeps R (open real path flags m).
Proof. intros. unfold open. keep'. Qed.

Lemma keeps_open64 : forall path flags m, keeps R (open64 real path flags m).
Proof. intros. unfold open64. keep'. Qed.

Lemma keeps_open64_2 : forall path flags,
  keeps R (__open64_2 real path flags).
Proof. intros. unfold __open64_2. keep'. Qed.

Lemma keeps_close : forall fd, keeps R (close real fd).
Proof. intros. unfold close. keep'. Qed.

End Invariant.

Lemma same_window_refl : forall (W : Type) (s : state W), same_window s s.
Proof. intros. unfold same_window. repeat split; reflexivity. Qed.

Lemma same_window_trans : forall (W : Type) (s1 s2 s3 : state W),
  same_window s1 s2 -> same_window s2 s3 -> same_window s1 s3.
Proof.
  unfold same_window. intros W s1 s2 s3 (a1 & a2 & a3 & a4) (b1 & b2 & b3 & b4).
  repeat split; congruence.
Qed.

Lemma same_window_sys : forall (W : Type) (h : host W) (s : state W),
  same_window s (set_sys h s).
Proof. intros. unfold same_window. repeat split; reflexivity. Qed.

Lemma same_window_log : forall (W : Type) level our fmt args (s : state W),
  same_window s (after_dprint level our fmt args s).
Proof.
  intros. destruct (after_dprint_core level our fmt args s)
    as (c1 & c2 & c3 & c4 & c5 & c6).
  unfold same_window. repeat split; assumption.
Qed.

Lemma same_window_fd : forall (W : Type) (t : list Z) (s : state W),
  same_window s (set_target_fd t s).
Proof. intros. unfold same_window. repeat split; reflexivity. Qed.

Lemma same_table_trans : forall (W : Type) (s1 s2 s3 : state W),
  same_table s1 s2 -> same_table s2 s3 -> same_table s1 s3.
Proof. unfold same_table. intros. congruence. Qed.

Lemma same_table_log : forall (W : Type) level our fmt args (s : state W),
  same_table s (after_dprint level our fmt args s).
Proof. intros. apply after_dprint_target_fd. Qed.

(** X13.  The window is read-only for the wrappers: whatever the
    arguments and whatever the real operations do, each of the fourteen
    interposed functions ends, by return or by [exit], with
    [target_name], [segment_offset], [segment_len] and [debug_level] as
    it found them. *)
Theorem wrappers_never_change_window :
  forall (W : Type) (real : real_ops W)
         (path : string) (fd flags m o whence x vers mode len count : Z)
         (st : stat) (buf : bytes),
    keeps same_window (open real path flags m) /\
    keeps same_window (open64 real path flags m) /\
    keeps same_window (__open64_2 real path flags) /\
    keeps same_window (close real fd) /\
    keeps same_window (lseek real fd o whence) /\
    keeps same_window (lseek64 real fd o whence) /\
    keeps same_window (__xstat real x path st) /\
    keeps same_window (__xstat64 real x path st) /\
    keeps same_window (fstat real fd st) /\
    keeps same_window (fstat64 real fd st) /\
    keeps same_window (__fxstat64 real vers fd st) /\
    keeps same_window (fallocate real fd mode o len) /\
    keeps same_window (pread64 real fd buf count o) /\
    keeps same_window (pwrite64 real fd buf count o).
Proof.
  intros.
  pose proof (same_window_refl W) as Hr.
  pose proof (same_window_trans W) as Ht.
  pose proof (same_window_sys W) as Hs.
  pose proof (same_window_log W) as Hl.
  pose proof (same_window_fd W) as Hf.
  repeat apply conj.
  - now apply keeps_open.
  - now apply keeps_open64.
  - now apply keeps_open64_2.
  - now apply keeps_close.
  - now apply keeps_lseek.
  - now apply keeps_lseek64.
  - now apply keeps_xstat.
  - now apply keeps_xstat64.
  - now apply keeps_fstat.
  - now apply keeps_fstat64.
  - now apply keeps_fxstat64.
  - now apply keeps_fallocate.
  - now apply keeps_pread64.
  - now apply keeps_pwrite64.
Qed.

(** X14.  Only the open and close wrappers write the descriptor table:
    the seeks, the status queries, [fallocate], [pread64] and [pwrite64]
    end, by return or by [exit], with [target_fd] as they found it. *)
Theorem only_open_and_close_change_table :
  forall (W : Type) (real : real_ops W)
         (path : string) (fd o whence x vers mode len count : Z)
         (st : stat) (buf : bytes),
    keeps same_table (lseek real fd o whence) /\
    keeps same_table (lseek64 real fd o whence) /\
    keeps same_table (__xstat real x path st) /\
    keeps same_table (__xstat64 real x path st) /\
    keeps same_table (fstat real fd st) /\
    keeps same_table (fstat64 real fd st) /\
    keeps same_table (__fxstat64 real vers fd st) /\
    keeps same_table (fallocate real fd mode o len) /\
    keeps same_table (pread64 real fd buf count o) /\
    keeps same_table (pwrite64 real fd buf count o).
Proof.
  intros.
  assert (Hr : forall s : state W, same_table s s) by reflexivity.
  pose proof (same_table_trans W) as Ht.
  assert (Hs : forall (h : host W) (s : state W), same_table s (set_sys h s))
    by reflexivity.
  pose proof (same_table_log W) as Hl.
  repeat apply conj.
  - now apply keeps_lseek.
  - now apply keeps_lseek64.
  - now apply keeps_xstat.
  - now apply keeps_xstat64.
  - now apply keeps_fstat.
  - now apply keeps_fstat64.
  - now apply keeps_fxstat64.
  - now apply keeps_fallocate.
  - now apply keeps_pread64.
  - now apply keeps_pwrite64.
Qed.

(** ** Reading [FILE] *)

Lemma skip_delims_commas : forall n s,
  skip_delims "," (commas n ++ s) = skip_delims "," s.
Proof.
  induction n as [|n IH]; intro s; [reflexivity|]. simpl. apply IH.
Qed.

Lemma skip_delims_field : forall t r,
  comma_free t = true -> t <> EmptyString ->
  skip_delims "," (t ++ r) = t ++ r.
Proof.
  intros [|c t] r Hf Hne; [congruence|]. simpl in *.
  apply andb_prop in Hf. destruct Hf as [Hc _].
  destruct (Ascii.eqb c ","); [discriminate | reflexivity].
Qed.

Lemma take_token_field : forall t r,
  comma_free t = true ->
  take_token "," (t ++ String "," r) = (t, r).
Proof.
  induction t as [|c t IH]; intros r Hf; simpl in *.
  - reflexivity.
  - apply andb_prop in Hf. destruct Hf as [Hc Hf].
    destruct (Ascii.eqb c ","); [discriminate|].
    rewrite (IH r Hf). reflexivity.
Qed.

Lemma take_token_last : forall t,
  comma_free t = true -> take_token "," t = (t, EmptyString).
Proof.
  induction t as [|c t IH]; intro Hf; simpl in *.
  - reflexivity.
  - apply andb_prop in Hf. destruct Hf as [Hc Hf].
    destruct (Ascii.eqb c ","); [discriminate|].
    rewrite (IH Hf). reflexivity.
Qed.

(** [strtok] skips a run of commas and yields the field that follows. *)
Lemma strtok_field : forall n t r,
  comma_free t = true -> t <> EmptyString ->
  strtok (commas n ++ t ++ String "," r) "," = (Some t, r).
Proof.
  intros n t r Hf Hne. unfold strtok.
  rewrite skip_delims_commas, (skip_delims_field t _ Hf Hne).
  destruct t as [|c t]; [congruence|].
  pose proof (take_token_field (String c t) r Hf) as H.
  cbn [append] in *. rewrite H. reflexivity.
Qed.

Lemma strtok_last : forall n t,
  comma_free t = true -> t <> EmptyString ->
  strtok (commas n ++ t) "," = (Some t, EmptyString).
Proof.
  intros n t Hf Hne. unfold strtok.
  rewrite skip_delims_commas.
  destruct t as [|c t]; [congruence|].
  pose proof (take_token_last (String c t) Hf) as H.
  cbn [comma_free] in Hf. apply andb_prop in Hf. destruct Hf as [Hc _].
  cbn [skip_delims is_delim]. 
  destruct (Ascii.eqb c ","); [discriminate|].
  rewrite H. reflexivity.
Qed.

Lemma fields_of_FILE : forall name o l n1 n2,
  comma_free name = true -> name <> EmptyString ->
  comma_free o = true -> o <> EmptyString ->
  comma_free l = true -> l <> EmptyString ->
  let FILE := name ++ commas (S n1) ++ o ++ commas (S n2) ++ l in
  fst (strtok FILE ",") = Some name /\
  offset_field FILE = Some o /\
  length_field FILE = Some l /\
  mode_field FILE = None.
Proof.
  intros name o l n1 n2 Hn Hn' Ho Ho' Hl Hl' FILE.
  unfold offset_field, length_field, mode_field, FILE.
  change (strtok (name ++ commas (S n1) ++ o ++ commas (S n2) ++ l) ",")
    with (strtok (commas 0 ++ name
                  ++ String "," (commas n1 ++ o
                                 ++ String "," (commas n2 ++ l))) ",").
  rewrite (strtok_field 0 name _ Hn Hn'). cbn [fst snd].
  rewrite (strtok_field n1 o _ Ho Ho'). cbn [fst snd].
  rewrite (strtok_last n2 l Hl Hl'). cbn [fst snd].
  repeat split; reflexivity.
Qed.

Lemma after_dprint_info_quiet : forall (W : Type) our fmt args (s : state W),
  debug_level s < LOG_INFO ->
  after_dprint LOG_INFO our fmt args s = s.
Proof.
  intros W our fmt args s Hlvl.
  unfold after_dprint, dprint, LOG_INFO, LOG_DBG in *.
  replace (debug_level s <? 4) with true by (symmetry; apply Z.ltb_lt; lia).
  replace (debug_level s =? 3) with false
    by (symmetry; apply Z.eqb_neq; lia).
  replace (3 >? debug_level s) with true
    by (symmetry; apply Z.gtb_lt; lia).
  reflexivity.
Qed.

(** The state [init] builds from the fields of [FILE] before it looks at
    the mode. *)
Lemma init_plain : forall (W : Type) (s : state W) a p1 p2 fopen_ok,
  offset_field a = Some p1 -> length_field a = Some p2 ->
  mode_field a <> Some "d" -> mode_field a <> Some "i" ->
  debug_level s < LOG_INFO ->
  init (Some a) fopen_ok s
  = Ret tt (mkState (fst (strtok a ",")) (repeat 0 MAX_FD)
                    (wrap64 (strtoull p1)) (wrap64 (strtoull p2))
                    (debug_stream s) (debug_level s) (stdout s)
                    (after_strtoull p2 (after_strtoull p1 (sys s)))).
Proof.
  intros W s a p1 p2 fopen_ok H1 H2 Hd Hi Hlvl.
  unfold init, offset_field, length_field, mode_field in *.
  destruct (strtok a ",") as [tok0 k0]. simpl in H1, H2, Hd, Hi.
  destruct (strtok k0 ",") as [q1 k1]. simpl in H1, H2, Hd, Hi. subst q1.
  destruct (strtok k1 ",") as [q2 k2]. simpl in H2, Hd, Hi. subst q2.
  destruct (strtok k2 ",") as [p3 k3]. simpl in Hd, Hi.
  assert (Hge : (debug_level s >=? LOG_INFO) = false).
  { unfold Z.geb. destruct (debug_level s ?= LOG_INFO) eqn:E;
      try reflexivity.
    - apply Z.compare_eq in E. lia.
    - apply Z.compare_gt_iff in E. lia. }
  assert (Hmode : forall p, p3 = Some p ->
            String.eqb p "d" = false /\ String.eqb p "i" = false).
  { intros p Hp. subst p3. split; apply String.eqb_neq; congruence. }
  destruct p3 as [p|];
    [destruct (Hmode p eq_refl) as [Ed Ei]; rewrite Ed, Ei|];
    run; rewrite Hge; run; rewrite dprint_eq;
    rewrite !after_dprint_info_quiet by (autorewrite with run; exact Hlvl);
    destruct s; reflexivity.
Qed.

Lemma init_logging : forall (W : Type) (s : state W) a p1 p2 md,
  offset_field a = Some p1 -> length_field a = Some p2 ->
  mode_field a = Some md -> md = "d" \/ md = "i" ->
  let lvl := if String.eqb md "d" then LOG_DBG else LOG_INFO in
  let lines := banner (fst (strtok a ","))
                      (wrap64 (strtoull p1)) (wrap64 (strtoull p2)) in
  init (Some a) true s
  = Ret tt (mkState (fst (strtok a ",")) (repeat 0 MAX_FD)
                    (wrap64 (strtoull p1)) (wrap64 (strtoull p2))
                    (Some lines) lvl (stdout s ++ lines)%list
                    (after_strtoull p2 (after_strtoull p1 (sys s)))) /\
  exits (init (Some a) false s) 1.
Proof.
  intros W s a p1 p2 md H1 H2 Hm Hmd lvl lines.
  unfold init, offset_field, length_field, mode_field, exits in *.
  destruct (strtok a ",") as [tok0 k0]. simpl in H1, H2, Hm.
  destruct (strtok k0 ",") as [q1 k1]. simpl in H1, H2, Hm. subst q1.
  destruct (strtok k1 ",") as [q2 k2]. simpl in H2, Hm. subst q2.
  destruct (strtok k2 ",") as [p3 k3]. simpl in Hm. subst p3.
  subst lvl lines. cbn [fst].
  destruct Hmd as [E|E]; subst md;
    change (("i" =? "d")%string) with false;
    rewrite ?String.eqb_refl; split; run;
    change (LOG_DBG >=? LOG_INFO) with true;
    change (LOG_INFO >=? LOG_INFO) with true; run;
    try (eexists; reflexivity);
    rewrite dprint_eq; unfold after_dprint, dprint; simpl;
    destruct s; simpl; rewrite <- ?app_assoc; reflexivity.
Qed.

(** X15.  [init] reads the fields of [FILE] between runs of commas: for
    a name and two fields free of commas, separated by one comma or
    more, it returns with the name as target, 16 free slots, and the
    window [strtoull] reads from the two fields.  An empty field is
    skipped, not noticed; [errno] is touched only by [strtoull], which
    stores [ERANGE] when a field does not fit [unsigned long long]; and
    below level [LOG_INFO] nothing is printed, no log file is opened and
    the outcome does not depend on whether one could be. *)
Theorem init_reads_fields :
  forall (W : Type) (s : state W) (name o l : string) (n1 n2 : nat)
         (fopen_ok : bool),
    comma_free name = true -> name <> EmptyString ->
    comma_free o = true -> o <> EmptyString ->
    comma_free l = true -> l <> EmptyString ->
    debug_level s < LOG_INFO ->
    init (Some (name ++ commas (S n1) ++ o ++ commas (S n2) ++ l))
         fopen_ok s
    = Ret tt (mkState (Some name) (repeat 0 MAX_FD)
                      (wrap64 (strtoull o)) (wrap64 (strtoull l))
                      (debug_stream s) (debug_level s) (stdout s)
                      (after_strtoull l (after_strtoull o (sys s)))).
Proof.
  intros W s name o l n1 n2 fopen_ok Hn Hn' Ho Ho' Hl Hl' Hlvl.
  destruct (fields_of_FILE name o l n1 n2 Hn Hn' Ho Ho' Hl Hl')
    as (H0 & H1 & H2 & H3).
  rewrite (init_plain W s _ o l fopen_ok H1 H2); try assumption.
  - rewrite H0. reflexivity.
  - rewrite H3. discriminate.
  - rewrite H3. discriminate.
Qed.

Lemma init_reads_fields_witness :
  let s := initial_state (mkHost 0 (@nil event)) in
  comma_free "disk.img" = true /\ "disk.img" <> EmptyString /\
  comma_free "44040192" = true /\ "44040192" <> EmptyString /\
  comma_free "33554944" = true /\ "33554944" <> EmptyString /\
  debug_level s < LOG_INFO /\
  init (Some "disk.img,,44040192,33554944") false s
  = Ret tt (mkState (Some "disk.img") (repeat 0 MAX_FD)
                    (wrap64 (strtoull "44040192"))
                    (wrap64 (strtoull "33554944"))
                    None 2 [] (mkHost 0 [])).
Proof.
  assert (Hlvl : debug_level (initial_state (mkHost 0 (@nil event)))
                 < LOG_INFO).
  { unfold LOG_INFO. simpl. lia. }
  repeat (split; [first [reflexivity | discriminate | exact Hlvl]|]).
  apply (init_reads_fields (list event) (initial_state (mkHost 0 []))
           "disk.img" "44040192" "33554944" 1 0 false
           eq_refl ltac:(discriminate) eq_refl ltac:(discriminate)
           eq_refl ltac:(discriminate) Hlvl).
Defined.

(** X16.  The fourth field of [FILE] selects logging only when it is
    exactly [d] or [i]: [init] then raises the level to [LOG_DBG] or
    [LOG_INFO], opens the log file and writes its three banner lines
    (the last format ends with a newline) to standard output and to the
    log, [errno] being [ERANGE] afterwards when a numeric field did not
    fit [unsigned long long] and untouched otherwise; and when the log
    file cannot be opened it ends in [exit(1)]. *)
Theorem init_mode_opens_log :
  forall (W : Type) (s : state W) (a p1 p2 md : string),
    offset_field a = Some p1 ->
    length_field a = Some p2 ->
    mode_field a = Some md ->
    md = "d" \/ md = "i" ->
    let lvl := if String.eqb md "d" then LOG_DBG else LOG_INFO in
    let lines := banner (fst (strtok a ","))
                        (wrap64 (strtoull p1)) (wrap64 (strtoull p2)) in
    init (Some a) true s
    = Ret tt (mkState (fst (strtok a ",")) (repeat 0 MAX_FD)
                      (wrap64 (strtoull p1)) (wrap64 (strtoull p2))
                      (Some lines) lvl (stdout s ++ lines)%list
                      (after_strtoull p2 (after_strtoull p1 (sys s)))) /\
    exits (init (Some a) false s) 1.
Proof.
  intros W s a p1 p2 md H1 H2 Hm Hmd. now apply init_logging.
Qed.

Lemma init_mode_opens_log_witness :
  let s := initial_state (mkHost 0 (@nil event)) in
  let a := "disk.img,44040192,33554944,i" in
  offset_field a = Some "44040192" /\
  length_field a = Some "33554944" /\
  mode_field a = Some "i" /\
  (exists s', init (Some a) true s = Ret tt s' /\
              debug_level s' = LOG_INFO /\
              debug_stream s' = Some (stdout s')) /\
  exits (init (Some a) false s) 1.
Proof.
  split; [reflexivity|]. split; [reflexivity|]. split; [reflexivity|].
  destruct (init_mode_opens_log (list event)
              (initial_state (mkHost 0 []))
              "disk.img,44040192,33554944,i" "44040192" "33554944" "i"
              eq_refl eq_refl eq_refl (or_intror eq_refl))
    as [Hrun Hexit].
  split; [|exact Hexit].
  eexists. split; [exact Hrun|]. split; reflexivity.
Defined.

(** X17.  Any other fourth field is ignored: when it is absent or is
    not exactly [d] or [i] (and the level is below [LOG_INFO], as it is
    when the library is loaded), [init] keeps the level, opens no log
    file, prints nothing, and returns the same state whether or not a
    log file could be opened; [errno] is [ERANGE] when a numeric field
    did not fit [unsigned long long] and untouched otherwise. *)
Theorem init_other_mode_is_ignored :
  forall (W : Type) (s : state W) (a p1 p2 : string) (fopen_ok : bool),
    offset_field a = Some p1 ->
    length_field a = Some p2 ->
    mode_field a <> Some "d" ->
    mode_field a <> Some "i" ->
    debug_level s < LOG_INFO ->
    init (Some a) fopen_ok s
    = Ret tt (mkState (fst (strtok a ",")) (repeat 0 MAX_FD)
                      (wrap64 (strtoull p1)) (wrap64 (strtoull p2))
                      (debug_stream s) (debug_level s) (stdout s)
                      (after_strtoull p2 (after_strtoull p1 (sys s)))).
Proof.
  intros W s a p1 p2 fopen_ok H1 H2 Hd Hi Hlvl. now apply init_plain.
Qed.

Lemma init_other_mode_is_ignored_witness :
  let s := initial_state (mkHost 0 (@nil event)) in
  let a := "disk.img,44040192,33554944,debug" in
  offset_field a = Some "44040192" /\
  length_field a = Some "33554944" /\
  mode_field a <> Some "d" /\
  mode_field a <> Some "i" /\
  debug_level s < LOG_INFO /\
  init (Some a) false s
  = Ret tt (mkState (Some "disk.img") (repeat 0 MAX_FD)
                    (wrap64 (strtoull "44040192"))
                    (wrap64 (strtoull "33554944"))
                    None 2 [] (mkHost 0 [])).
Proof.
  assert (Hlvl : debug_level (initial_state (mkHost 0 (@nil event)))
                 < LOG_INFO).
  { unfold LOG_INFO. simpl. lia. }
  assert (Hd : mode_field "disk.img,44040192,33554944,debug" <> Some "d").
  { discriminate. }
  assert (Hi : mode_field "disk.img,44040192,33554944,debug" <> Some "i").
  { discriminate. }
  split; [reflexivity|]. split; [reflexivity|].
  split; [exact Hd|]. split; [exact Hi|]. split; [exact Hlvl|].
  apply (init_other_mode_is_ignored (list event)
           (initial_state (mkHost 0 []))
           "disk.img,44040192,33554944,debug" "44040192" "33554944" false
           eq_refl eq_refl Hd Hi Hlvl).
Defined.

(** ** Decimal fields *)

Lemma digit_of_range : forall c d, digit_of c = Some d -> 0 <= d <= 9.
Proof.
  intros c d. unfold digit_of.
  destruct ((48 <=? Z.of_nat (nat_of_ascii c))
            && (Z.of_nat (nat_of_ascii c) <=? 57)) eqn:E; [|discriminate].
  apply andb_prop in E. destruct E as [E1 E2].
  apply Z.leb_le in E1. apply Z.leb_le in E2.
  intro H. inversion H. lia.
Qed.

Lemma digit_is_plain : forall c d r,
  digit_of c = Some d ->
  Ascii.eqb c "," = false /\
  strtoull (String c r)
  = (if read_digits 0 (String c r) >? ULLONG_MAX then ULLONG_MAX
     else read_digits 0 (String c r)).
Proof.
  intros c d r H.
  destruct c as [b0 b1 b2 b3 b4 b5 b6 b7].
  destruct b0, b1, b2, b3, b4, b5, b6, b7;
    try (vm_compute in H; discriminate H);
    split; reflexivity.
Qed.

Lemma digit_has_no_sign : forall c d r,
  digit_of c = Some d ->
  strtoull_overflows (String c r)
  = (read_digits 0 (String c r) >? ULLONG_MAX).
Proof.
  intros c d r H.
  destruct c as [b0 b1 b2 b3 b4 b5 b6 b7].
  destruct b0, b1, b2, b3, b4, b5, b6, b7;
    try (vm_compute in H; discriminate H);
    reflexivity.
Qed.

Lemma all_digits_comma_free : forall s,
  all_digits s = true -> comma_free s = true.
Proof.
  induction s as [|c r IH]; simpl; intro H; [reflexivity|].
  destruct (digit_of c) as [d|] eqn:E; [|discriminate].
  destruct (digit_is_plain c d EmptyString E) as [Hc _].
  rewrite Hc, (IH H). reflexivity.
Qed.

Lemma decimal_value_nonneg : forall s, 0 <= decimal_value s.
Proof.
  induction s as [|c r IH]; simpl; [lia|].
  destruct (digit_of c) as [d|] eqn:E; [|lia].
  pose proof (digit_of_range c d E).
  assert (0 <= 10 ^ Z.of_nat (String.length r)) by (apply Z.pow_nonneg; lia).
  nia.
Qed.

(** The loop of [strtoull] computes the positional value. *)
Lemma read_digits_value : forall s acc,
  all_digits s = true ->
  read_digits acc s
  = acc * 10 ^ Z.of_nat (String.length s) + decimal_value s.
Proof.
  induction s as [|c r IH]; intros acc H.
  - simpl. lia.
  - cbn [all_digits] in H. cbn [read_digits decimal_value String.length].
    destruct (digit_of c) as [d|] eqn:E; [|discriminate].
    rewrite (IH _ H). rewrite Nat2Z.inj_succ, Z.pow_succ_r by lia. ring.
Qed.

Lemma strtoull_decimal : forall s,
  all_digits s = true -> s <> EmptyString ->
  strtoull s = Z.min (decimal_value s) ULLONG_MAX.
Proof.
  intros [|c r] H Hne; [congruence|].
  pose proof H as H'. cbn [all_digits] in H'.
  destruct (digit_of c) as [d|] eqn:E; [|discriminate].
  destruct (digit_is_plain c d r E) as [_ Hs]. rewrite Hs.
  rewrite (read_digits_value _ 0 H). rewrite Z.mul_0_l, Z.add_0_l.
  destruct (decimal_value (String c r) >? ULLONG_MAX) eqn:G.
  - apply Z.gtb_lt in G. lia.
  - assert (decimal_value (String c r) <= ULLONG_MAX).
    { destruct (Z.gtb_spec (decimal_value (String c r)) ULLONG_MAX);
        [discriminate | lia]. }
    lia.
Qed.

(** [strtoull] leaves [errno] alone on a string of digits that denotes
    at most [ULLONG_MAX]. *)
Lemma after_strtoull_decimal : forall (W : Type) s (h : host W),
  all_digits s = true -> s <> EmptyString ->
  decimal_value s <= ULLONG_MAX ->
  after_strtoull s h = h.
Proof.
  intros W [|c r] h H Hne Hv; [congruence|].
  pose proof H as H'. cbn [all_digits] in H'.
  destruct (digit_of c) as [d|] eqn:E; [|discriminate].
  unfold after_strtoull. rewrite (digit_has_no_sign c d r E).
  rewrite (read_digits_value _ 0 H). rewrite Z.mul_0_l, Z.add_0_l.
  destruct (Z.gtb_spec (decimal_value (String c r)) ULLONG_MAX);
    [lia | reflexivity].
Qed.

(** X18.  For a [FILE] of the form [name,offset,length] whose two
    numeric fields are non-empty strings of decimal digits denoting
    values that fit [off64_t], [init] returns with exactly that window:
    [segment_offset] and [segment_len] are the numbers the digits
    denote, the name is the target, and the table has 16 free slots. *)
Theorem init_reads_decimal_window :
  forall (W : Type) (s : state W) (name o l : string) (fopen_ok : bool),
    comma_free name = true -> name <> EmptyString ->
    all_digits o = true -> o <> EmptyString ->
    all_digits l = true -> l <> EmptyString ->
    decimal_value o <= INT64_MAX ->
    decimal_value l <= INT64_MAX ->
    debug_level s < LOG_INFO ->
    init (Some (name ++ "," ++ o ++ "," ++ l)) fopen_ok s
    = Ret tt (mkState (Some name) (repeat 0 MAX_FD)
                      (decimal_value o) (decimal_value l)
                      (debug_stream s) (debug_level s) (stdout s) (sys s)).
Proof.
  intros W s name o l fopen_ok Hn Hn' Ho Ho' Hl Hl' Vo Vl Hlvl.
  pose proof (all_digits_comma_free o Ho) as Co.
  pose proof (all_digits_comma_free l Hl) as Cl.
  destruct (fields_of_FILE name o l 0 0 Hn Hn' Co Ho' Cl Hl')
    as (H0 & H1 & H2 & H3).
  change (name ++ commas 1 ++ o ++ commas 1 ++ l)
    with (name ++ "," ++ o ++ "," ++ l) in *.
  rewrite (init_plain W s _ o l fopen_ok H1 H2); try assumption.
  - rewrite H0.
    rewrite (strtoull_decimal o Ho Ho'), (strtoull_decimal l Hl Hl').
    pose proof (decimal_value_nonneg o). pose proof (decimal_value_nonneg l).
    rewrite !Z.min_l by (unfold INT64_MAX, ULLONG_MAX in *; lia).
    rewrite (after_strtoull_decimal W o _ Ho Ho')
      by (unfold INT64_MAX, ULLONG_MAX in *; lia).
    rewrite (after_strtoull_decimal W l _ Hl Hl')
      by (unfold INT64_MAX, ULLONG_MAX in *; lia).
    rewrite !wrap64_id; [reflexivity | |];
      unfold in_off64, INT64_MIN, INT64_MAX, ULLONG_MAX in *; lia.
  - rewrite H3. discriminate.
  - rewrite H3. discriminate.
Qed.

Lemma init_reads_decimal_window_witness :
  let s := initial_state (mkHost 0 (@nil event)) in
  comma_free "disk.img" = true /\ "disk.img" <> EmptyString /\
  all_digits "44040192" = true /\ "44040192" <> EmptyString /\
  all_digits "33554944" = true /\ "33554944" <> EmptyString /\
  decimal_value "44040192" <= INT64_MAX /\
  decimal_value "33554944" <= INT64_MAX /\
  debug_level s < LOG_INFO /\
  init (Some example_FILE) true s
  = Ret tt (mkState (Some "disk.img") (repeat 0 MAX_FD) 44040192 33554944
                    None 2 [] (mkHost 0 [])).
Proof.
  assert (Hlvl : debug_level (initial_state (mkHost 0 (@nil event)))
                 < LOG_INFO).
  { unfold LOG_INFO. simpl. lia. }
  assert (Vo : decimal_value "44040192" <= INT64_MAX).
  { vm_compute. discriminate. }
  assert (Vl : decimal_value "33554944" <= INT64_MAX).
  { vm_compute. discriminate. }
  repeat (split;
          [first [reflexivity | discriminate | exact Hlvl | exact Vo
                 | exact Vl]|]).
  apply (init_reads_decimal_window (list event)
           (initial_state (mkHost 0 [])) "disk.img" "44040192" "33554944"
           true eq_refl ltac:(discriminate) eq_refl ltac:(discriminate)
           eq_refl ltac:(discriminate) Vo Vl Hlvl).
Defined.

(** X19.  A numeric field of [FILE] goes through [unsigned long long]
    into the signed [off64_t]: when the length field is a string of
    digits denoting more than [INT64_MAX], [init] returns with a
    negative [segment_len], namely the value (capped at [ULLONG_MAX])
    minus 2^64. *)
Theorem init_length_beyond_INT64_MAX_is_negative :
  forall (W : Type) (s : state W) (name o l : string),
    comma_free name = true -> name <> EmptyString ->
    comma_free o = true -> o <> EmptyString ->
    all_digits l = true -> l <> EmptyString ->
    INT64_MAX < decimal_value l ->
    exists s',
      init (Some (name ++ "," ++ o ++ "," ++ l)) true s = Ret tt s' /\
      segment_len s' = Z.min (decimal_value l) ULLONG_MAX - 2 ^ 64 /\
      segment_len s' < 0.
Proof.
  intros W s name o l Hn Hn' Co Ho' Hl Hl' Vl.
  pose proof (all_digits_comma_free l Hl) as Cl.
  destruct (fields_of_FILE name o l 0 0 Hn Hn' Co Ho' Cl Hl')
    as (H0 & H1 & H2 & H3).
  change (name ++ commas 1 ++ o ++ commas 1 ++ l)
    with (name ++ "," ++ o ++ "," ++ l) in *.
  destruct (init_present _ o l s H1 H2)
    as (s' & Hrun & _ & _ & _ & Hlen & _).
  exists s'. split; [exact Hrun|].
  rewrite Hlen, (strtoull_decimal l Hl Hl').
  assert (E : wrap64 (Z.min (decimal_value l) ULLONG_MAX)
              = Z.min (decimal_value l) ULLONG_MAX - 2 ^ 64).
  { unfold wrap64, INT64_MAX, ULLONG_MAX in *.
    replace (Z.min (decimal_value l) (2 ^ 64 - 1) + 2 ^ 63)
      with ((Z.min (decimal_value l) (2 ^ 64 - 1) - 2 ^ 63) + 1 * 2 ^ 64)
      by ring.
    rewrite Z.mod_add by lia. rewrite Z.mod_small; lia. }
  rewrite E. split; [reflexivity|].
  unfold ULLONG_MAX. lia.
Qed.

Lemma init_length_beyond_INT64_MAX_is_negative_witness :
  let s := initial_state (mkHost 0 (@nil event)) in
  comma_free "disk.img" = true /\ "disk.img" <> EmptyString /\
  comma_free "0" = true /\ "0" <> EmptyString /\
  all_digits "9223372036854775808" = true /\
  "9223372036854775808" <> EmptyString /\
  INT64_MAX < decimal_value "9223372036854775808" /\
  exists s',
    init (Some "disk.img,0,9223372036854775808") true s = Ret tt s' /\
    segment_len s' < 0.
Proof.
  assert (Vl : INT64_MAX < decimal_value "9223372036854775808").
  { vm_compute. reflexivity. }
  repeat (split; [first [reflexivity | discriminate | exact Vl]|]).
  destruct (init_length_beyond_INT64_MAX_is_negative (list event)
              (initial_state (mkHost 0 [])) "disk.img" "0"
              "9223372036854775808"
              eq_refl ltac:(discriminate) eq_refl ltac:(discriminate)
              eq_refl ltac:(discriminate) Vl)
    as (s' & Hrun & _ & Hneg).
  exists s'. split; [exact Hrun | exact Hneg].
Defined.

(** ** Logging of redirected calls *)

Lemma after_dprint_info_ours : forall (W : Type) level fmt args (s : state W),
  debug_level s = LOG_INFO ->
  after_dprint level true fmt args s
  = set_debug_stream
      (match debug_stream s with
       | Some f => Some (f ++ [mkLine fmt args])%list
       | None => None
       end)
      (set_stdout (stdout s ++ [mkLine fmt args])%list s).
Proof.
  intros W level fmt args s Hlvl. unfold after_dprint, dprint.
  rewrite Hlvl. reflexivity.
Qed.

(** X20.  At level [LOG_INFO] a redirected call is logged: a positioned
    read or write on a tracked descriptor inside the window prints one
    line, on standard output and in the log file when it is open, with
    the caller's own relative offset and count and the result of the
    real call; nothing else of the process differs from what the real
    call left. *)
Theorem redirected_io_is_logged_at_info :
  forall (W : Type) (real : real_ops W) (s : state W)
         (fd : Z) (buf : bytes) (count o : Z),
    debug_level s = LOG_INFO ->
    tracked s fd = true ->
    o <= segment_len s ->
    in_off64 (o + segment_offset s) ->
    let logged (l : line) (s0 : state W) :=
      set_debug_stream
        (match debug_stream s0 with
         | Some f => Some (f ++ [l])%list
         | None => None
         end)
        (set_stdout (stdout s0 ++ [l])%list s0) in
    let Rr := p_pread64 real fd buf count (o + segment_offset s) (sys s) in
    let Rw := p_pwrite64 real fd buf count (o + segment_offset s) (sys s) in
    pread64 real fd buf count o s
    = Ret (fst Rr)
          (logged (mkLine "%s(%d, %d, %llu) => %d"
                          [AStr "pread64"; AInt fd; AInt count; AInt o;
                           AInt (fst (fst Rr))])
                  (set_sys (snd Rr) s)) /\
    pwrite64 real fd buf count o s
    = Ret (fst Rw)
          (logged (mkLine "%s(%d, %d, %llu) => %d"
                          [AStr "pwrite64"; AInt fd; AInt count; AInt o;
                           AInt (fst Rw)])
                  (set_sys (snd Rw) s)).
Proof.
  intros W real s fd buf count o Hlvl Ht Ho Hr logged Rr Rw.
  subst logged Rr Rw. unfold tracked in Ht. split.
  - unfold pread64. run. rewrite Ht. run.
    destruct (o >? segment_len s) eqn:E; [lia|].
    run. rewrite (wrap64_id _ Hr).
    destruct (p_pread64 real fd buf count _ (sys s)) as [[r b] h].
    run. rewrite Ht. rewrite after_dprint_info_ours by exact Hlvl.
    reflexivity.
  - unfold pwrite64. run. rewrite Ht. run.
    destruct (o >? segment_len s) eqn:E; [lia|].
    run. rewrite (wrap64_id _ Hr). rewrite Ht.
    rewrite after_dprint_info_ours by exact Hlvl.
    reflexivity.
Qed.

Lemma redirected_io_is_logged_at_info_witness :
  let s := mkState (Some "disk.img") table_3 44040192 33554944 (Some [])
                   LOG_INFO [] (mkHost 0 (@nil event)) in
  let real := scripted (always 4096) in
  debug_level s = LOG_INFO /\
  tracked s 3 = true /\
  512 <= segment_len s /\
  in_off64 (512 + segment_offset s) /\
  exists s',
    pwrite64 real 3 [] 4096 512 s = Ret 4096 s' /\
    world (sys s') = [EvPwrite64 3 4096 44040704] /\
    stdout s' = [mkLine "%s(%d, %d, %llu) => %d"
                        [AStr "pwrite64"; AInt 3; AInt 4096; AInt 512;
                         AInt 4096]] /\
    debug_stream s' = Some (stdout s').
Proof.
  set (s := mkState (Some "disk.img") table_3 44040192 33554944 (Some [])
                    LOG_INFO [] (mkHost 0 (@nil event))).
  assert (Ho : 512 <= segment_len s) by (simpl; lia).
  assert (Hr : in_off64 (512 + segment_offset s)).
  { unfold in_off64, INT64_MIN, INT64_MAX. simpl. lia. }
  split; [reflexivity|]. split; [reflexivity|].
  split; [exact Ho|]. split; [exact Hr|].
  destruct (redirected_io_is_logged_at_info (list event)
              (scripted (always 4096)) s 3 [] 4096 512
              eq_refl eq_refl Ho Hr) as [_ Hw].
  eexists. split; [exact Hw|]. repeat split; reflexivity.
Defined.

Lemma close_always_returns_witness :
  let s := example_state table_3 in
  tracked s 5 = false /\
  exists s', close (scripted all_fail) 5 s = Ret (-1) s' /\
             target_fd s' = target_fd s.
Proof.
  split; [reflexivity|].
  destruct (close_always_returns (list event) (scripted all_fail)
              (example_state table_3) 5) as (s' & Hrun & _ & _ & Hfd).
  exists s'. split; [exact Hrun | exact (Hfd eq_refl)].
Defined.
